(** * blas_benchmark: the measurement engine, embedded and verified

    A shallow embedding of the measurement core of the BLAS benchmark
    (src/benchmark/benchmark.cpp, src/benchmark/blas_functions.{h,cpp},
    src/utils/timer.h, and the validation step of src/main.cpp).

    - [std::size_t] is a [Z] reduced modulo 2^64 after every operation;
      [int] values are plain [Z] and are reduced when they are converted
      to [std::size_t].
    - [double] is an interface ([DoubleOps]) with two instances: IEEE
      binary64 (Rocq's primitive floats), which is what the program runs
      on, and exact rational arithmetic ([Q]), in which the algebraic
      laws of the statistics are stated.
    - The compute backend, the clock and the logger are a world that the
      code threads through: a nanosecond clock, a counter of backend
      invocations and a trace of events.  Dereferencing the end iterator
      of an empty vector is the outcome [Undefined]. *)

From Stdlib Require Import ZArith QArith List String Bool Lia Lqa.
From Stdlib Require Import Ascii DecimalString DecimalPos DecimalZ.
From Stdlib Require Import Floats.PrimFloat Floats.SpecFloat Floats.FloatOps.
Import ListNotations.

Set Implicit Arguments.
Set Default Goal Selector "!".

Local Open Scope string_scope.
Local Open Scope list_scope.
Local Open Scope Z_scope.

(* ================================================================== *)
(** ** Machine integers *)

Module SizeT.

Definition modulus : Z := 2 ^ 64.

(** Reduction of an integer result to [std::size_t]; also the
    conversion of an [int] argument to a [std::size_t] parameter. *)
Definition wrap (z : Z) : Z := z mod modulus.

Definition add (a b : Z) : Z := wrap (a + b).
Definition mul (a b : Z) : Z := wrap (a * b).
(** Unsigned division; the divisors of the program are non-zero literals. *)
Definition div (a b : Z) : Z := a / b.

End SizeT.

(* ================================================================== *)
(** ** The arithmetic of [double] *)

(** The operations the measurement engine performs on [double] values. *)
Class DoubleOps (D : Type) : Type := {
  d_of_Z : Z -> D;            (* static_cast<double>(integer), integral literals *)
  d_add  : D -> D -> D;
  d_mul  : D -> D -> D;
  d_div  : D -> D -> D;
  d_lt   : D -> D -> bool     (* operator< *)
}.

(** IEEE 754 binary64, round to nearest even. *)
#[export] Instance binary64 : DoubleOps float := {
  d_of_Z z := SF2Prim (binary_normalize prec emax z 0 false);
  d_add    := PrimFloat.add;
  d_mul    := PrimFloat.mul;
  d_div    := PrimFloat.div;
  d_lt     := PrimFloat.ltb
}.

(** Exact rational arithmetic: no rounding, no overflow.  Division by
    zero, which is an infinity or a NaN in binary64, is [0] here: the
    order laws below assume positive divisors, and an equation that
    does not has both of its sides equal to [0] at a zero divisor. *)
#[export] Instance exact : DoubleOps Q := {
  d_of_Z   := inject_Z;
  d_add    := Qplus;
  d_mul    := Qmult;
  d_div    := Qdiv;
  d_lt x y := negb (Qle_bool y x)
}.

(* ================================================================== *)
(** ** FLOP model (blas_functions.h, namespace flops) *)

Module flops.

(** [2 * n] *)
Definition dot (n : Z) : Z := SizeT.mul 2 n.

(** [2 * n] *)
Definition axpy (n : Z) : Z := SizeT.mul 2 n.

(** [n] *)
Definition scal (n : Z) : Z := n.

(** [2 * m * n], evaluated left to right *)
Definition gemv (m n : Z) : Z := SizeT.mul (SizeT.mul 2 m) n.

(** [2 * m * n * k], evaluated left to right *)
Definition gemm (m n k : Z) : Z :=
  SizeT.mul (SizeT.mul (SizeT.mul 2 m) n) k.

End flops.

(* ================================================================== *)
(** ** Data model *)

(** config::BenchmarkConfig (config_parser.h); the output file, the
    output format and the scoring weights play no part in measurement
    and are left out. *)
Record BenchmarkConfig : Type := {
  threads     : Z;                        (* int *)
  cycles      : Z;                        (* int *)
  warmup      : Z;                        (* int *)
  flush_cache : bool;
  level1_size : option Z;                 (* std::optional<std::size_t> *)
  level2_size : option (Z * Z);           (* std::optional<std::pair<int,int>> *)
  level3_size : option (Z * Z * Z);       (* std::optional<std::tuple<int,int,int>> *)
  level1_functions : list string;
  level2_functions : list string;
  level3_functions : list string
}.

(** utils::SystemInfo (system_info.h), without the CPU frequency. *)
Record SystemInfo : Type := {
  cpu_model      : string;
  cpu_cores      : Z;
  physical_cores : Z;
  l1_cache       : Z;                     (* std::size_t *)
  l2_cache       : Z;                     (* std::size_t *)
  l3_cache       : Z;                     (* std::size_t *)
  total_memory   : Z;                     (* std::size_t *)
  os_name        : string
}.

(** SystemInfoCollector::get_total_cache (system_info.h) *)
Definition get_total_cache (info : SystemInfo) : Z :=
  SizeT.add (SizeT.add (l1_cache info) (l2_cache info)) (l3_cache info).

(** BenchmarkResult (benchmark.h) *)
Record BenchmarkResult (D : Type) : Type := {
  function_name : string;
  config_str    : string;
  res_threads   : Z;                      (* field [threads] *)
  min_time_ms   : D;
  avg_time_ms   : D;
  max_time_ms   : D;
  gflops        : D;
  res_flops     : Z                       (* field [flops], std::size_t *)
}.

(** BenchmarkReport (benchmark.h) *)
Record BenchmarkReport (D : Type) : Type := {
  system_info    : SystemInfo;
  level1_results : list (BenchmarkResult D);
  level2_results : list (BenchmarkResult D);
  level3_results : list (BenchmarkResult D);
  config         : BenchmarkConfig
}.

(** The state of a BenchmarkRunner after construction. *)
Record BenchmarkRunner : Type := {
  m_config     : BenchmarkConfig;
  m_cache_size : Z                        (* std::size_t *)
}.

(* ================================================================== *)
(** ** The world: backend, clock and logger *)

(** A call of a BlasWrapper routine with its dimensions. *)
Inductive Kernel : Type :=
| Kdot  (n : Z)
| Kaxpy (n : Z)
| Kscal (n : Z)
| Kgemv (m n : Z)
| Kgemm (m n k : Z).

Inductive Event : Type :=
| EvSetThreads (n : Z)                    (* openblas_set_num_threads *)
| EvFlush (bytes : Z)                     (* utils::flush_cache *)
| EvTimerStart
| EvTimerStop
| EvBlas (k : Kernel)                     (* one backend invocation *)
| EvWarn (msg : string)                   (* spdlog::warn *)
| EvError (msg : string).                 (* spdlog::error *)

(** What the program cannot decide: the detected hardware, how long the
    [j]-th backend invocation of the run takes and how long an eviction
    of a given size takes (both in nanoseconds). *)
Record Machine : Type := {
  detected : SystemInfo;
  blas_ns  : nat -> Z;
  flush_ns : Z -> Z
}.

Record World : Type := {
  now        : Z;                         (* high_resolution_clock, ns *)
  blas_calls : nat;                       (* backend invocations so far *)
  trace      : list Event                 (* oldest event first *)
}.

Definition initial_world : World :=
  {| now := 0; blas_calls := 0; trace := [] |}.

Inductive Outcome (A : Type) : Type :=
| Ok (a : A) (w : World)
| Throws (what : string) (w : World)      (* a std::exception in flight *)
| Undefined (w : World).                  (* undefined behaviour reached *)

Arguments Throws {A} what w.
Arguments Undefined {A} w.

Definition M (A : Type) : Type := World -> Outcome A.

Definition ret {A} (a : A) : M A := fun w => Ok a w.

Definition bind {A B} (c : M A) (k : A -> M B) : M B :=
  fun w =>
    match c w with
    | Ok a w'       => k a w'
    | Throws what w' => Throws what w'
    | Undefined w'  => Undefined w'
    end.

Definition throw {A} (what : string) : M A := fun w => Throws what w.
Definition undefined {A} : M A := fun w => Undefined w.

Declare Scope engine_scope.
Delimit Scope engine_scope with engine.
Notation "x <- c ;; k" := (bind c (fun x => k))
  (at level 61, c at next level, right associativity) : engine_scope.
Notation "c ;;; k" := (bind c (fun _ => k))
  (at level 61, right associativity) : engine_scope.
Local Open Scope engine_scope.

(** [for (i = 0; i < n; ++i) s = body(s);] *)
Fixpoint for_loop {S : Type} (n : nat) (body : S -> M S) (s : S) : M S :=
  match n with
  | O    => ret s
  | S n' => s' <- body s ;; for_loop n' body s'
  end.

(** [for (const auto& x : xs) s = body(x, s);] *)
Fixpoint for_each {X S : Type} (xs : list X) (body : X -> S -> M S) (s : S)
  : M S :=
  match xs with
  | []       => ret s
  | x :: xs' => s' <- body x s ;; for_each xs' body s'
  end.

Definition emit (e : Event) : M unit :=
  fun w => Ok tt {| now := now w; blas_calls := blas_calls w;
                    trace := trace w ++ [e] |}.

Definition advance (ns : Z) : M unit :=
  fun w => Ok tt {| now := now w + ns; blas_calls := blas_calls w;
                    trace := trace w |}.

Definition clock_now : M Z := fun w => Ok (now w) w.

(* ================================================================== *)
(** ** Clock and Cache Evictor (utils/timer.h) *)

Module utils.

(** class Timer *)
Record Timer : Type := { m_start : Z; m_end : Z }.

Definition Timer_new : Timer := {| m_start := 0; m_end := 0 |}.

Definition start (t : Timer) : M Timer :=
  emit EvTimerStart ;;;
  t0 <- clock_now ;;
  ret {| m_start := t0; m_end := m_end t |}.

Definition stop (t : Timer) : M Timer :=
  t1 <- clock_now ;;
  emit EvTimerStop ;;;
  ret {| m_start := m_start t; m_end := t1 |}.

(** [duration_cast<microseconds>(m_end - m_start).count()]: the cast
    truncates towards zero. *)
Definition elapsed_us (t : Timer) : Z := Z.quot (m_end t - m_start t) 1000.

(** [static_cast<double>(duration.count()) / 1000.0] *)
Definition elapsed_ms {D} `{DoubleOps D} (t : Timer) : D :=
  d_div (d_of_Z (elapsed_us t)) (d_of_Z 1000).

(** Memory accesses of the eviction loop, by element index. *)
Inductive Access : Type :=
| Rd (i : nat)
| Wr (i : nat).

Section Evictor.
Context {D : Type} `{DoubleOps D}.

Record FlushState : Type := {
  buffer   : list D;                  (* std::vector<double> *)
  sum      : D;                       (* volatile double *)
  accesses : list Access              (* oldest access first *)
}.

(** [buffer[i] = v] for [i] inside the vector. *)
Fixpoint store (i : nat) (v : D) (l : list D) : list D :=
  match l, i with
  | [], _           => []
  | _ :: l', O      => v :: l'
  | x :: l', S i'   => x :: store i' v l'
  end.

Definition multiplier : Z := 4.
Definition sizeof_double : Z := 8.

(** [cache_size_bytes * multiplier / sizeof(double)] *)
Definition buffer_size (cache_size_bytes : Z) : Z :=
  SizeT.div (SizeT.mul cache_size_bytes multiplier) sizeof_double.

(** One iteration: [sum += buffer[i]; buffer[i] = static_cast<double>(i);] *)
Definition touch (i : nat) (st : FlushState) : FlushState :=
  {| buffer   := store i (d_of_Z (Z.of_nat i)) (buffer st);
     sum      := d_add (sum st) (nth i (buffer st) (d_of_Z 0));
     accesses := accesses st ++ [Rd i; Wr i] |}.

(** [for (; i < buffer_size; ++i)], with [n] iterations left. *)
Fixpoint touch_from (i n : nat) (st : FlushState) : FlushState :=
  match n with
  | O    => st
  | S n' => touch_from (S i) n' (touch i st)
  end.

(** The body of [flush_cache]: the state when the loop has ended. *)
Definition flush_cache (cache_size_bytes : Z) : FlushState :=
  let n := Z.to_nat (buffer_size cache_size_bytes) in
  touch_from 0 n {| buffer   := repeat (d_of_Z 0) n;
                    sum      := d_of_Z 0;
                    accesses := [] |}.

(** Bytes held by the buffer that [flush_cache] allocates. *)
Definition buffer_bytes (cache_size_bytes : Z) : Z :=
  sizeof_double * buffer_size cache_size_bytes.

End Evictor.

End utils.

(* ================================================================== *)
(** ** Measurement Loop (blas_functions.cpp) *)

Section Engine.

Context {D : Type} {dops : DoubleOps D}.
Variable mach : Machine.

(** One call of [utils::flush_cache] as the world sees it: it takes
    time, outside any timed window, and is recorded. *)
Definition call_flush_cache (cache_size : Z) : M unit :=
  emit (EvFlush cache_size) ;;;
  advance (flush_ns mach cache_size).

(** One call of a [BlasWrapper<T>] routine: the backend runs for as
    long as the machine says this invocation takes. *)
Definition blas (k : Kernel) : M unit :=
  fun w =>
    Ok tt {| now        := now w + blas_ns mach (blas_calls w);
             blas_calls := S (blas_calls w);
             trace      := trace w ++ [EvBlas k] |}.

(** [if (flush_cache) utils::flush_cache(cache_size);] *)
Definition flush_if (flush : bool) (cache_size : Z) : M unit :=
  if flush then call_flush_cache cache_size else ret tt.

(** The body shared by the five [benchmark_*] functions, which differ
    only in the routine they call: [warmup] untimed calls, then
    [cycles] timed calls whose elapsed times are summed, and
    [total_time / static_cast<double>(cycles)] returned.  The operand
    vectors (random data) do not influence the control flow and are
    not represented. *)
Definition measurement_loop (call : M unit)
           (warmup cycles : Z) (flush : bool) (cache_size : Z) : M D :=
  for_loop (Z.to_nat warmup)
           (fun _ => flush_if flush cache_size ;;; call) tt ;;;
  st <- for_loop (Z.to_nat cycles)
                 (fun '(timer, total_time) =>
                    flush_if flush cache_size ;;;
                    timer1 <- utils.start timer ;;
                    call ;;;
                    timer2 <- utils.stop timer1 ;;
                    ret (timer2, d_add total_time (utils.elapsed_ms timer2)))
                 (utils.Timer_new, d_of_Z 0) ;;
  ret (d_div (snd st) (d_of_Z cycles)).

Definition benchmark_dot (n warmup cycles : Z) (flush : bool) (cache_size : Z)
  : M D := measurement_loop (blas (Kdot n)) warmup cycles flush cache_size.

Definition benchmark_axpy (n warmup cycles : Z) (flush : bool) (cache_size : Z)
  : M D := measurement_loop (blas (Kaxpy n)) warmup cycles flush cache_size.

Definition benchmark_scal (n warmup cycles : Z) (flush : bool) (cache_size : Z)
  : M D := measurement_loop (blas (Kscal n)) warmup cycles flush cache_size.

Definition benchmark_gemv (m n warmup cycles : Z) (flush : bool)
           (cache_size : Z) : M D :=
  measurement_loop (blas (Kgemv m n)) warmup cycles flush cache_size.

Definition benchmark_gemm (m n k warmup cycles : Z) (flush : bool)
           (cache_size : Z) : M D :=
  measurement_loop (blas (Kgemm m n k)) warmup cycles flush cache_size.

(* ================================================================ *)
(** ** Result Aggregator and Orchestrator (benchmark.cpp) *)

(** BenchmarkRunner::BenchmarkRunner *)
Definition BenchmarkRunner_new (cfg : BenchmarkConfig) : BenchmarkRunner :=
  let sys_info := detected mach in
  let cache_size :=
      SizeT.add (SizeT.add (l1_cache sys_info) (l2_cache sys_info))
                (l3_cache sys_info) in
  {| m_config     := cfg;
     m_cache_size := if cache_size <? 1024 * 1024
                     then 16 * 1024 * 1024
                     else cache_size |}.

(** BenchmarkRunner::set_threads *)
Definition set_threads (num_threads : Z) : M unit :=
  emit (EvSetThreads num_threads).

(** [std::min_element]: the first least element; [best] is the
    element the iterator [smallest] points at. *)
Fixpoint min_element_from (best : D) (l : list D) : D :=
  match l with
  | []     => best
  | x :: r => min_element_from (if d_lt x best then x else best) r
  end.

(** [*std::min_element(v.begin(), v.end())]; on an empty vector the
    algorithm returns [end()], whose dereference is undefined. *)
Definition min_element (l : list D) : option D :=
  match l with
  | []     => None
  | x :: r => Some (min_element_from x r)
  end.

(** [std::max_element]: the first greatest element. *)
Fixpoint max_element_from (best : D) (l : list D) : D :=
  match l with
  | []     => best
  | x :: r => max_element_from (if d_lt best x then x else best) r
  end.

Definition max_element (l : list D) : option D :=
  match l with
  | []     => None
  | x :: r => Some (max_element_from x r)
  end.

(** [std::accumulate(first, last, init)] *)
Definition accumulate (l : list D) (init : D) : D := fold_left d_add l init.

(** [std::accumulate(times.begin(), times.end(), 0.0) / times.size()] *)
Definition average (times : list D) : D :=
  d_div (accumulate times (d_of_Z 0)) (d_of_Z (Z.of_nat (List.length times))).

(** [static_cast<double>(flops_count) / ((avg_time_ms / 1000.0) * 1e9)] *)
Definition gflops_of (flops_count : Z) (avg_ms : D) : D :=
  let time_sec := d_div avg_ms (d_of_Z 1000) in
  d_div (d_of_Z flops_count) (d_mul time_sec (d_of_Z (10 ^ 9))).

(** BenchmarkRunner::run_single_benchmark, first part ("Collect
    timing data"): [cycles] calls of [benchmark_func], each sample
    pushed onto [times]. *)
Definition collect_times (self : BenchmarkRunner) (benchmark_func : M D)
  : M (list D) :=
  for_loop (Z.to_nat (cycles (m_config self)))
           (fun times =>
              time_ms <- benchmark_func ;;
              ret (times ++ [time_ms]))
           [].

(** BenchmarkRunner::run_single_benchmark, second part ("Calculate
    statistics", "Calculate GFLOPS"). *)
Definition summarise (self : BenchmarkRunner) (name config_str : string)
           (flops_count : Z) (times : list D) : M (BenchmarkResult D) :=
  match min_element times, max_element times with
  | Some min_ms, Some max_ms =>
      let avg_ms := average times in
      ret {| function_name := name;
             config_str    := config_str;
             res_threads   := threads (m_config self);
             min_time_ms   := min_ms;
             avg_time_ms   := avg_ms;
             max_time_ms   := max_ms;
             gflops        := gflops_of flops_count avg_ms;
             res_flops     := flops_count |}
  | _, _ => undefined
  end.

(** BenchmarkRunner::run_single_benchmark *)
Definition run_single_benchmark (self : BenchmarkRunner)
           (name config_str : string) (benchmark_func : M D)
           (flops_count : Z) : M (BenchmarkResult D) :=
  times <- collect_times self benchmark_func ;;
  summarise self name config_str flops_count times.

(** [std::format("{}", z)] for an integer. *)
Definition fmt (z : Z) : string := NilZero.string_of_int (Z.to_int z).

(** [report.level1_results.push_back(result)] and its two siblings. *)
Definition push_level1 (report : BenchmarkReport D) (r : BenchmarkResult D)
  : BenchmarkReport D :=
  {| system_info    := system_info report;
     level1_results := level1_results report ++ [r];
     level2_results := level2_results report;
     level3_results := level3_results report;
     config         := config report |}.

Definition push_level2 (report : BenchmarkReport D) (r : BenchmarkResult D)
  : BenchmarkReport D :=
  {| system_info    := system_info report;
     level1_results := level1_results report;
     level2_results := level2_results report ++ [r];
     level3_results := level3_results report;
     config         := config report |}.

Definition push_level3 (report : BenchmarkReport D) (r : BenchmarkResult D)
  : BenchmarkReport D :=
  {| system_info    := system_info report;
     level1_results := level1_results report;
     level2_results := level2_results report;
     level3_results := level3_results report ++ [r];
     config         := config report |}.

(** The body of the loop of BenchmarkRunner::run_level1: one
    configured name is dispatched by exact string comparison. *)
Definition level1_step (self : BenchmarkRunner) (n : Z) (config_str : string)
           (func_name : string) (report : BenchmarkReport D)
  : M (BenchmarkReport D) :=
  let cfg := m_config self in
  if (func_name =? "cblas_ddot")%string then
    result <- run_single_benchmark self "ddot" config_str
                (benchmark_dot n (SizeT.wrap (warmup cfg)) 1
                               (flush_cache cfg) (m_cache_size self))
                (flops.dot n) ;;
    ret (push_level1 report result)
  else if (func_name =? "cblas_daxpy")%string then
    result <- run_single_benchmark self "daxpy" config_str
                (benchmark_axpy n (SizeT.wrap (warmup cfg)) 1
                                (flush_cache cfg) (m_cache_size self))
                (flops.axpy n) ;;
    ret (push_level1 report result)
  else if (func_name =? "cblas_dscal")%string then
    result <- run_single_benchmark self "dscal" config_str
                (benchmark_scal n (SizeT.wrap (warmup cfg)) 1
                                (flush_cache cfg) (m_cache_size self))
                (flops.scal n) ;;
    ret (push_level1 report result)
  else
    emit (EvWarn ("Unknown Level 1 function: " ++ func_name)%string) ;;;
    ret report.

(** BenchmarkRunner::run_level1.  [value()] on an empty optional
    throws [std::bad_optional_access]. *)
Definition run_level1 (self : BenchmarkRunner) (report : BenchmarkReport D)
  : M (BenchmarkReport D) :=
  match level1_size (m_config self) with
  | None => throw "bad optional access"
  | Some n =>
      let config_str := ("N=" ++ fmt n)%string in
      for_each (level1_functions (m_config self))
               (level1_step self n config_str) report
  end.

(** The body of the loop of BenchmarkRunner::run_level2; the [int]
    sizes become [std::size_t] arguments. *)
Definition level2_step (self : BenchmarkRunner) (m n : Z) (config_str : string)
           (func_name : string) (report : BenchmarkReport D)
  : M (BenchmarkReport D) :=
  let cfg := m_config self in
  if (func_name =? "cblas_dgemv")%string then
    result <- run_single_benchmark self "dgemv" config_str
                (benchmark_gemv (SizeT.wrap m) (SizeT.wrap n)
                                (SizeT.wrap (warmup cfg)) 1
                                (flush_cache cfg) (m_cache_size self))
                (flops.gemv (SizeT.wrap m) (SizeT.wrap n)) ;;
    ret (push_level2 report result)
  else
    emit (EvWarn ("Unknown Level 2 function: " ++ func_name)%string) ;;;
    ret report.

(** BenchmarkRunner::run_level2 *)
Definition run_level2 (self : BenchmarkRunner) (report : BenchmarkReport D)
  : M (BenchmarkReport D) :=
  match level2_size (m_config self) with
  | None => throw "bad optional access"
  | Some (m, n) =>
      let config_str := ("M=" ++ fmt m ++ ",N=" ++ fmt n)%string in
      for_each (level2_functions (m_config self))
               (level2_step self m n config_str) report
  end.

(** The body of the loop of BenchmarkRunner::run_level3 *)
Definition level3_step (self : BenchmarkRunner) (m n k : Z)
           (config_str : string)
           (func_name : string) (report : BenchmarkReport D)
  : M (BenchmarkReport D) :=
  let cfg := m_config self in
  if (func_name =? "cblas_dgemm")%string then
    result <- run_single_benchmark self "dgemm" config_str
                (benchmark_gemm (SizeT.wrap m) (SizeT.wrap n) (SizeT.wrap k)
                                (SizeT.wrap (warmup cfg)) 1
                                (flush_cache cfg) (m_cache_size self))
                (flops.gemm (SizeT.wrap m) (SizeT.wrap n) (SizeT.wrap k)) ;;
    ret (push_level3 report result)
  else
    emit (EvWarn ("Unknown Level 3 function: " ++ func_name)%string) ;;;
    ret report.

(** BenchmarkRunner::run_level3 *)
Definition run_level3 (self : BenchmarkRunner) (report : BenchmarkReport D)
  : M (BenchmarkReport D) :=
  match level3_size (m_config self) with
  | None => throw "bad optional access"
  | Some (m, n, k) =>
      let config_str :=
          ("M=" ++ fmt m ++ ",N=" ++ fmt n ++ ",K=" ++ fmt k)%string in
      for_each (level3_functions (m_config self))
               (level3_step self m n k config_str) report
  end.

Definition has_value {A} (o : option A) : bool :=
  match o with Some _ => true | None => false end.

Definition empty {A} (l : list A) : bool :=
  match l with [] => true | _ :: _ => false end.

(** BenchmarkRunner::run_all *)
Definition run_all (self : BenchmarkRunner) : M (BenchmarkReport D) :=
  let cfg := m_config self in
  let report := {| system_info    := detected mach;
                   level1_results := [];
                   level2_results := [];
                   level3_results := [];
                   config         := cfg |} in
  set_threads (threads cfg) ;;;
  report <- (if has_value (level1_size cfg)
                && negb (empty (level1_functions cfg))
             then run_level1 self report else ret report) ;;
  report <- (if has_value (level2_size cfg)
                && negb (empty (level2_functions cfg))
             then run_level2 self report else ret report) ;;
  report <- (if has_value (level3_size cfg)
                && negb (empty (level3_functions cfg))
             then run_level3 self report else ret report) ;;
  ret report.

(* ================================================================ *)
(** ** The program (main.cpp), from the assembled configuration on *)

(** [try { body } catch (const std::exception& e) { handler(e.what()) }] *)
Definition try_catch {A} (body : M A) (handler : string -> M A) : M A :=
  fun w =>
    match body w with
    | Throws what w' => handler what w'
    | o              => o
    end.

(** [main] once the command line and the configuration file have been
    merged into [config]: the validation of the sizes, then the run.
    The value is the exit status.  Printing and the formatter are not
    represented. *)
Definition main (config : BenchmarkConfig) : M Z :=
  if negb (has_value (level1_size config))
     && negb (has_value (level2_size config))
     && negb (has_value (level3_size config))
  then
    emit (EvError ("No benchmark sizes specified. Use --level1, --level2, "
                   ++ "or --level3 options.")%string) ;;;
    ret 1
  else
    try_catch
      (let runner := BenchmarkRunner_new config in
       report <- run_all runner ;;
       ret 0)
      (fun what =>
         emit (EvError ("Benchmark failed: " ++ what)%string) ;;;
         ret 1).

End Engine.

(** ConfigParser::get_default (config_parser.h), with the member
    initialisers of BenchmarkConfig. *)
Definition get_default : BenchmarkConfig :=
  {| threads     := 1;
     cycles      := 5;
     warmup      := 3;
     flush_cache := true;
     level1_size := Some 1000000;
     level2_size := Some (1024, 1024);
     level3_size := Some (1024, 1024, 1024);
     level1_functions := ["cblas_ddot"; "cblas_daxpy"; "cblas_dscal"];
     level2_functions := ["cblas_dgemv"];
     level3_functions := ["cblas_dgemm"] |}.

(* ================================================================== *)
(** ** Vocabulary of the properties *)

(** The world in which a computation ends, whatever its outcome. *)
Definition final_world {A} (o : Outcome A) : World :=
  match o with
  | Ok _ w | Throws _ w | Undefined w => w
  end.

Definition is_blas (e : Event) : bool :=
  match e with EvBlas _ => true | _ => false end.

Definition is_error (e : Event) : bool :=
  match e with EvError _ => true | _ => false end.

(** Backend invocations recorded in a trace. *)
Definition count_blas (tr : list Event) : nat :=
  List.length (filter is_blas tr).

(** Messages of the warnings recorded in a trace, oldest first. *)
Fixpoint warnings (tr : list Event) : list string :=
  match tr with
  | []              => []
  | EvWarn msg :: r => msg :: warnings r
  | _ :: r          => warnings r
  end.

(** Events of one untimed (warmup) invocation of kernel [k]. *)
Definition warm_events (k : Kernel) (flush : bool) (cache_size : Z)
  : list Event :=
  (if flush then [EvFlush cache_size] else []) ++ [EvBlas k].

(** Events of one timed invocation of kernel [k]. *)
Definition timed_events (k : Kernel) (flush : bool) (cache_size : Z)
  : list Event :=
  (if flush then [EvFlush cache_size] else [])
    ++ [EvTimerStart; EvBlas k; EvTimerStop].

(** [n] copies of a block of events, one after the other. *)
Definition times_events (n : nat) (block : list Event) : list Event :=
  List.concat (repeat block n).

(** Events of one call of a [benchmark_*] function with [w] warmup
    invocations and [c] timed ones. *)
Definition loop_events (k : Kernel) (w c : nat) (flush : bool)
           (cache_size : Z) : list Event :=
  times_events w (warm_events k flush cache_size)
    ++ times_events c (timed_events k flush cache_size).

(** The names each level recognises, and the names it reports. *)
Definition level1_names : list string :=
  ["cblas_ddot"; "cblas_daxpy"; "cblas_dscal"].
Definition level2_names : list string := ["cblas_dgemv"].
Definition level3_names : list string := ["cblas_dgemm"].

Definition recognized (names : list string) (name : string) : bool :=
  existsb (String.eqb name) names.

(** The reported name of a recognised operation: the prefix [cblas_]
    (six characters) is dropped. *)
Definition short_name (name : string) : string :=
  substring 6 (String.length name - 6) name.

Section Vocabulary.

Context {D : Type} {dops : DoubleOps D}.
Variable mach : Machine.

(** The sample a timed backend invocation lasting [ns] nanoseconds
    yields: whole microseconds, divided by 1000.0. *)
Definition sample_of_ns (ns : Z) : D :=
  d_div (d_of_Z (Z.quot ns 1000)) (d_of_Z 1000).

(** Elapsed time of the [j]-th backend invocation of the run. *)
Definition elapsed (j : nat) : D := sample_of_ns (blas_ns mach j).

(** What a [benchmark_*] function returns when its timed invocations
    are the [c] invocations from the [j]-th on. *)
Definition loop_mean (j c : nat) (cycles : Z) : D :=
  d_div (fold_left d_add (map elapsed (seq j c)) (d_of_Z 0))
        (d_of_Z cycles).

(** The samples [run_single_benchmark] collects in [c] cycles when
    every cycle performs [w] warmup invocations and one timed one,
    the first cycle starting at invocation [j]. *)
Fixpoint samples (j w c : nat) : list D :=
  match c with
  | O    => []
  | S c' => loop_mean (j + w) 1 1 :: samples (j + w + 1) w c'
  end.

(** The FLOP count the Orchestrator attaches to a reported name. *)
Definition model_flops (cfg : BenchmarkConfig) (name : string) : option Z :=
  if (name =? "ddot")%string then option_map flops.dot (level1_size cfg)
  else if (name =? "daxpy")%string then option_map flops.axpy (level1_size cfg)
  else if (name =? "dscal")%string then option_map flops.scal (level1_size cfg)
  else if (name =? "dgemv")%string then
    option_map (fun '(m, n) => flops.gemv (SizeT.wrap m) (SizeT.wrap n))
               (level2_size cfg)
  else if (name =? "dgemm")%string then
    option_map (fun '(m, n, k) =>
                  flops.gemm (SizeT.wrap m) (SizeT.wrap n) (SizeT.wrap k))
               (level3_size cfg)
  else None.

(** Field consistency of a result produced under configuration [cfg]. *)
Definition consistent (cfg : BenchmarkConfig) (r : BenchmarkResult D) : Prop :=
  res_threads r = threads cfg
  /\ gflops r = gflops_of (res_flops r) (avg_time_ms r)
  /\ model_flops cfg (function_name r) = Some (res_flops r).

(** What the result reported for the configured name [name] satisfies. *)
Definition reported (cfg : BenchmarkConfig) (name : string)
           (r : BenchmarkResult D) : Prop :=
  function_name r = short_name name /\ consistent cfg r.

(** Backend invocations one benchmarked operation costs. *)
Definition invocations_per_operation (cfg : BenchmarkConfig) : nat :=
  (Z.to_nat (cycles cfg) * (Z.to_nat (SizeT.wrap (warmup cfg)) + 1))%nat.

End Vocabulary.

(** How the body of a level's loop treats one operation name. *)
Section DispatchVocabulary.

Context {D : Type}.
Variable body : string -> BenchmarkReport D -> M (BenchmarkReport D).
Variable push : BenchmarkReport D -> BenchmarkResult D -> BenchmarkReport D.
Variable known : string -> bool.
Variable prefix : string.

(** An unrecognised name is reported and skipped. *)
Definition skips_unknown : Prop :=
  forall name report w,
    known name = false ->
    body name report w
    = Ok report {| now := now w; blas_calls := blas_calls w;
                   trace := trace w ++ [EvWarn (prefix ++ name)%string] |}.

(** A recognised name is benchmarked, silently, with [per_op] backend
    invocations, and its result, which satisfies [good], is pushed. *)
Definition runs_known (good : string -> BenchmarkResult D -> Prop)
           (per_op : nat) : Prop :=
  forall name report w,
    known name = true ->
    exists res w',
      body name report w = Ok (push report res) w'
      /\ good name res
      /\ warnings (trace w') = warnings (trace w)
      /\ blas_calls w' = (blas_calls w + per_op)%nat.

(** A recognised name cannot be benchmarked: the loop stops there, in
    an undefined state. *)
Definition stalls_known : Prop :=
  forall name report w,
    known name = true -> body name report w = Undefined w.

End DispatchVocabulary.

(** Whether the Orchestrator runs a level. *)
Definition runs_level {A} (size : option A) (names : list string) : bool :=
  has_value size && negb (empty names).

(** The configured names of a level that are benchmarked, and those
    that are skipped with a warning, in the order of the configuration. *)
Definition benchmarked {A} (known : list string) (size : option A)
           (names : list string) : list string :=
  if has_value size then filter (recognized known) names else [].

Definition skipped {A} (known : list string) (size : option A)
           (names : list string) : list string :=
  if has_value size
  then filter (fun name => negb (recognized known name)) names
  else [].

(** Whether a level reaches a recognised name. *)
Definition reaches_known {A} (known : list string) (size : option A)
           (names : list string) : bool :=
  has_value size && existsb (recognized known) names.

(** Whether some level that runs reaches a recognised name. *)
Definition reaches_benchmark (cfg : BenchmarkConfig) : bool :=
  reaches_known level1_names (level1_size cfg) (level1_functions cfg)
  || reaches_known level2_names (level2_size cfg) (level2_functions cfg)
  || reaches_known level3_names (level3_size cfg) (level3_functions cfg).

(** No level has both a size and a non-empty operation list. *)
Definition no_level_runs (cfg : BenchmarkConfig) : bool :=
  negb (runs_level (level1_size cfg) (level1_functions cfg))
  && negb (runs_level (level2_size cfg) (level2_functions cfg))
  && negb (runs_level (level3_size cfg) (level3_functions cfg)).

(** No level has a size. *)
Definition no_size (cfg : BenchmarkConfig) : bool :=
  negb (has_value (level1_size cfg))
  && negb (has_value (level2_size cfg))
  && negb (has_value (level3_size cfg)).

(** The report [run_all] starts from. *)
Definition empty_report (D : Type) (info : SystemInfo) (cfg : BenchmarkConfig)
  : BenchmarkReport D :=
  {| system_info    := info;
     level1_results := [];
     level2_results := [];
     level3_results := [];
     config         := cfg |}.

(** The world after one more event. *)
Definition logged (w : World) (e : Event) : World :=
  {| now := now w; blas_calls := blas_calls w; trace := trace w ++ [e] |}.

Definition no_sizes_message : string :=
  "No benchmark sizes specified. Use --level1, --level2, or --level3 options.".

(** [w'] differs from [w] neither in backend invocations nor in
    logged errors. *)
Definition quiet (w w' : World) : Prop :=
  blas_calls w' = blas_calls w
  /\ filter is_blas (trace w') = filter is_blas (trace w)
  /\ filter is_error (trace w') = filter is_error (trace w).

(** An event that is not an eviction, or is one of [bytes] bytes. *)
Definition flush_size_is (bytes : Z) (e : Event) : Prop :=
  match e with
  | EvFlush b => b = bytes
  | _         => True
  end.

(** A computation over whose run a property of the events of the trace
    is kept, whatever its outcome. *)
Definition keeps {A} (P : Event -> Prop) (c : M A) : Prop :=
  forall w, Forall P (trace w) -> Forall P (trace (final_world (c w))).

(** Arithmetic mean and extremes in exact arithmetic. *)
Definition Qsum (l : list Q) : Q := fold_right Qplus 0%Q l.

Definition Qmean (l : list Q) : Q :=
  (Qsum l / inject_Z (Z.of_nat (List.length l)))%Q.

(** *** Example machines and configurations *)

(** A machine whose caches add up to 512 KiB and whose backend
    invocations last as long as [durations] says. *)
Definition stub_info : SystemInfo :=
  {| cpu_model      := "stub";
     cpu_cores      := 4;
     physical_cores := 4;
     l1_cache       := 32 * 1024;
     l2_cache       := 256 * 1024;
     l3_cache       := 224 * 1024;
     total_memory   := 8 * 1024 * 1024 * 1024;
     os_name        := "stub" |}.

Definition stub_machine (durations : nat -> Z) : Machine :=
  {| detected := stub_info;
     blas_ns  := durations;
     flush_ns := fun bytes => bytes |}.

(** Timed calls stubbed to 1.0, 2.0, 3.0, ... ms. *)
Definition rising_machine : Machine :=
  stub_machine (fun j => (Z.of_nat j + 1) * 1000000).

(** Every backend invocation lasts [us] microseconds. *)
Definition steady_machine (us : Z) : Machine :=
  stub_machine (fun _ => us * 1000).

(** [config.cycles = cycles;] as [main] overrides the loaded
    configuration with the command line. *)
Definition with_cycles (c : Z) (cfg : BenchmarkConfig) : BenchmarkConfig :=
  {| threads     := threads cfg;
     cycles      := c;
     warmup      := warmup cfg;
     flush_cache := flush_cache cfg;
     level1_size := level1_size cfg;
     level2_size := level2_size cfg;
     level3_size := level3_size cfg;
     level1_functions := level1_functions cfg;
     level2_functions := level2_functions cfg;
     level3_functions := level3_functions cfg |}.

(** A configuration that benchmarks the given level-1 names on vectors
    of a million elements. *)
Definition level1_only (c w : Z) (names : list string) : BenchmarkConfig :=
  {| threads     := 1;
     cycles      := c;
     warmup      := w;
     flush_cache := true;
     level1_size := Some 1000000;
     level2_size := None;
     level3_size := None;
     level1_functions := names;
     level2_functions := [];
     level3_functions := [] |}.
(* ================================================================== *)
(** ** Vocabulary of further properties of the engine *)

(** What a run of levels may append to the trace: warmup invocations,
    timed invocations and warnings, in any number and order.  An
    eviction occurs only as the first event of an invocation, exactly
    when [flush] is set, and with the size [cache_size]; a timed window
    holds one backend invocation and nothing else. *)
Inductive disciplined (flush : bool) (cache_size : Z) : list Event -> Prop :=
| disciplined_nil :
    disciplined flush cache_size []
| disciplined_warm k tail :
    disciplined flush cache_size tail ->
    disciplined flush cache_size (warm_events k flush cache_size ++ tail)
| disciplined_timed k tail :
    disciplined flush cache_size tail ->
    disciplined flush cache_size (timed_events k flush cache_size ++ tail)
| disciplined_warn msg tail :
    disciplined flush cache_size tail ->
    disciplined flush cache_size (EvWarn msg :: tail).

Definition is_flush (e : Event) : bool :=
  match e with EvFlush _ => true | _ => false end.

Definition is_set_threads (e : Event) : bool :=
  match e with EvSetThreads _ => true | _ => false end.

(** A computation that only appends to the trace, and appends a
    sequence of events in [L], whatever its outcome. *)
Definition appends {A} (L : list Event -> Prop) (c : M A) : Prop :=
  forall w, exists tail,
    trace (final_world (c w)) = trace w ++ tail /\ L tail.

(** Two worlds that differ at most in what the clock shows. *)
Definition same_view (w1 w2 : World) : Prop :=
  blas_calls w1 = blas_calls w2 /\ trace w1 = trace w2.

(** Two outcomes of the same kind, with the same value, in worlds that
    differ at most in what the clock shows. *)
Definition same_outcome {A} (o1 o2 : Outcome A) : Prop :=
  match o1, o2 with
  | Ok a1 w1, Ok a2 w2               => a1 = a2 /\ same_view w1 w2
  | Throws what1 w1, Throws what2 w2 => what1 = what2 /\ same_view w1 w2
  | Undefined w1, Undefined w2       => same_view w1 w2
  | _, _                             => False
  end.

(** Two computations that cannot be told apart by their outcome when
    they start in worlds that differ at most in what the clock shows. *)
Definition agree {A} (c1 c2 : M A) : Prop :=
  forall w1 w2, same_view w1 w2 -> same_outcome (c1 w1) (c2 w2).

(** Two machines with the same hardware and the same backend durations;
    their evictions may take different times. *)
Definition same_backend (m1 m2 : Machine) : Prop :=
  detected m1 = detected m2 /\ forall j, blas_ns m1 j = blas_ns m2 j.

(* ================================================================== *)
(** ** What the backend is asked to do (blas_functions.h, class BlasWrapper) *)

Module IntT.

Definition min : Z := - 2 ^ 31.
Definition max : Z := 2 ^ 31 - 1.

(** [static_cast<int>(z)]: the [int] congruent to [z] modulo [2^32]. *)
Definition wrap (z : Z) : Z := (z + 2 ^ 31) mod 2 ^ 32 - 2 ^ 31.

(** The values of an [int]. *)
Definition in_range (z : Z) : bool := (min <=? z) && (z <=? max).

End IntT.

(** A call of a CBLAS routine with its integer arguments.  The
    storage order is [CblasRowMajor] and no operand is transposed in
    every call the program makes; the operands and the scalars are not
    represented. *)
Inductive CblasCall : Type :=
| cblas_ddot  (n incx incy : Z)
| cblas_daxpy (n incx incy : Z)
| cblas_dscal (n incx : Z)
| cblas_dgemv (m n lda incx incy : Z)
| cblas_dgemm (m n k lda ldb ldc : Z).

Module BlasWrapper.

(** [cblas_ddot(static_cast<int>(n), x, incx, y, incy)] *)
Definition dot (n incx incy : Z) : CblasCall :=
  cblas_ddot (IntT.wrap n) incx incy.

Definition axpy (n incx incy : Z) : CblasCall :=
  cblas_daxpy (IntT.wrap n) incx incy.

Definition scal (n incx : Z) : CblasCall :=
  cblas_dscal (IntT.wrap n) incx.

Definition gemv (m n lda incx incy : Z) : CblasCall :=
  cblas_dgemv (IntT.wrap m) (IntT.wrap n) lda incx incy.

Definition gemm (m n k lda ldb ldc : Z) : CblasCall :=
  cblas_dgemm (IntT.wrap m) (IntT.wrap n) (IntT.wrap k) lda ldb ldc.

End BlasWrapper.

(** The CBLAS call behind one backend invocation: the arguments the
    [benchmark_*] function of the kernel passes to [BlasWrapper], with
    its casts of the leading dimensions. *)
Definition backend_call (k : Kernel) : CblasCall :=
  match k with
  | Kdot n      => BlasWrapper.dot n 1 1
  | Kaxpy n     => BlasWrapper.axpy n 1 1
  | Kscal n     => BlasWrapper.scal n 1
  | Kgemv m n   => BlasWrapper.gemv m n (IntT.wrap n) 1 1
  | Kgemm m n k =>
      BlasWrapper.gemm m n k (IntT.wrap k) (IntT.wrap n) (IntT.wrap n)
  end.

(** The sizes of a configuration are values of their C++ types. *)
Definition sizes_in_range (cfg : BenchmarkConfig) : bool :=
  match level1_size cfg with
  | Some n => (0 <=? n) && (n <? SizeT.modulus)
  | None   => true
  end
  && match level2_size cfg with
     | Some (m, n) => IntT.in_range m && IntT.in_range n
     | None        => true
     end
  && match level3_size cfg with
     | Some (m, n, k) =>
         IntT.in_range m && IntT.in_range n && IntT.in_range k
     | None           => true
     end.

(** A CBLAS call on the sizes of a configuration: vectors of the
    level-1 length as an [int], with unit strides; a row-major
    [M x N] matrix with leading dimension [N] for level 2; row-major
    [M x K], [K x N] and [M x N] matrices with leading dimensions [K],
    [N] and [N] for level 3. *)
Definition configured_call (cfg : BenchmarkConfig) (c : CblasCall) : Prop :=
  match c with
  | cblas_ddot n incx incy | cblas_daxpy n incx incy =>
      option_map IntT.wrap (level1_size cfg) = Some n
      /\ incx = 1 /\ incy = 1
  | cblas_dscal n incx =>
      option_map IntT.wrap (level1_size cfg) = Some n /\ incx = 1
  | cblas_dgemv m n lda incx incy =>
      level2_size cfg = Some (m, n) /\ lda = n /\ incx = 1 /\ incy = 1
  | cblas_dgemm m n k lda ldb ldc =>
      level3_size cfg = Some (m, n, k) /\ lda = k /\ ldb = n /\ ldc = n
  end.

(** An event that is not a backend invocation, or is one whose CBLAS
    call is on the sizes of [cfg]. *)
Definition calls_configured (cfg : BenchmarkConfig) (e : Event) : Prop :=
  match e with
  | EvBlas k => configured_call cfg (backend_call k)
  | _        => True
  end.

(** A configuration with sizes for the three levels. *)
Definition sized (n : Z) (m2 n2 : Z) (m3 n3 k3 : Z) (names1 names2 names3 : list string)
  : BenchmarkConfig :=
  {| threads     := 1;
     cycles      := 2;
     warmup      := 1;
     flush_cache := false;
     level1_size := Some n;
     level2_size := Some (m2, n2);
     level3_size := Some (m3, n3, k3);
     level1_functions := names1;
     level2_functions := names2;
     level3_functions := names3 |}.

(* ================================================================== *)
(** ** The other readings of the Timer (utils/timer.h) *)

(** [static_cast<double>(duration_cast<nanoseconds>(m_end - m_start).count())] *)
Definition elapsed_ns {D} `{DoubleOps D} (t : utils.Timer) : D :=
  d_of_Z (utils.m_end t - utils.m_start t).

(** [static_cast<double>(duration.count()) / 1000000.0], on whole
    microseconds as in [elapsed_ms]. *)
Definition elapsed_sec {D} `{DoubleOps D} (t : utils.Timer) : D :=
  d_div (d_of_Z (utils.elapsed_us t)) (d_of_Z 1000000).

(** A machine whose [j]-th backend invocation lasts [j mod 1000]
    nanoseconds: never a whole microsecond. *)
Definition quick_machine : Machine :=
  stub_machine (fun j => Z.of_nat j mod 1000).

(* ================================================================== *)
(** ** Strings and numeric conversions of the standard library *)

Module StdString.

(** [s.find(c)]: the position of the first [c]; [None] is [npos]. *)
Fixpoint find (c : Ascii.ascii) (s : string) : option nat :=
  match s with
  | EmptyString => None
  | String a r  => if Ascii.eqb a c then Some O else option_map S (find c r)
  end.

(** [s.substr(pos)], for [pos <= s.size()] as in every call of the
    program. *)
Definition substr_from (pos : nat) (s : string) : string :=
  substring pos (String.length s - pos) s.

(** [s.substr(pos, len)], for [pos <= s.size()]: at most [len]
    characters. *)
Definition substr (pos len : nat) (s : string) : string :=
  substring pos len s.

(** [s.find(c, pos)], for [pos <= s.size()]. *)
Definition find_from (c : Ascii.ascii) (pos : nat) (s : string) : option nat :=
  option_map (Nat.add pos) (find c (substr_from pos s)).

(** [s.empty()] *)
Definition empty (s : string) : bool :=
  match s with EmptyString => true | String _ _ => false end.

End StdString.

(** How [std::stoi], [std::stoul] and [std::stoull] end. *)
Inductive Conversion : Type :=
| Converted (z : Z)
| invalid_argument
| out_of_range.

(** [std::isspace] in the "C" locale. *)
Definition isspace (c : Ascii.ascii) : bool :=
  match c with
  | " "%char | "009"%char | "010"%char | "011"%char | "012"%char
  | "013"%char => true
  | _ => false
  end.

(** The value of a decimal digit: ['0' <= c && c <= '9'], then
    [c - '0']. *)
Definition digit_of (c : Ascii.ascii) : option Z :=
  let code := Z.of_nat (nat_of_ascii c) in
  if (48 <=? code) && (code <=? 57) then Some (code - 48) else None.

Fixpoint skip_spaces (s : string) : string :=
  match s with
  | String c r => if isspace c then skip_spaces r else s
  | EmptyString => s
  end.

(** The decimal digits at the head of [s], as a number continuing
    [acc]; [None] when there is none and none was [seen]. *)
Fixpoint digits (s : string) (acc : Z) (seen : bool) : option Z :=
  match s with
  | String c r =>
      match digit_of c with
      | Some d => digits r (10 * acc + d) true
      | None   => if seen then Some acc else None
      end
  | EmptyString => if seen then Some acc else None
  end.

(** The subject sequence of [strtol] and [strtoull] in base 10: white
    space, an optional sign, digits; what follows is ignored.  The
    result is the sign and the magnitude. *)
Definition scan_integer (s : string) : option (bool * Z) :=
  match skip_spaces s with
  | String "-"%char r => option_map (pair true) (digits r 0 false)
  | String "+"%char r => option_map (pair false) (digits r 0 false)
  | t                 => option_map (pair false) (digits t 0 false)
  end.

(** [std::stoi(s)] *)
Definition stoi (s : string) : Conversion :=
  match scan_integer s with
  | None => invalid_argument
  | Some (negative, magnitude) =>
      let v := if negative then - magnitude else magnitude in
      if IntT.in_range v then Converted v else out_of_range
  end.

(** [std::stoull(s)], and [std::stoul(s)] where [unsigned long] has 64
    bits: a magnitude that fits is negated in the unsigned type when
    the sign is a minus. *)
Definition stoull (s : string) : Conversion :=
  match scan_integer s with
  | None => invalid_argument
  | Some (negative, magnitude) =>
      if magnitude <? SizeT.modulus
      then Converted (SizeT.wrap (if negative then - magnitude else magnitude))
      else out_of_range
  end.

Definition stoul (s : string) : Conversion := stoull s.

(* ================================================================== *)
(** ** The sizes on the command line (main.cpp) *)

(** parse_size_pair (main.cpp): [std::nullopt] without a comma or when
    a conversion throws. *)
Definition parse_size_pair (str : string) : option (Z * Z) :=
  match StdString.find ","%char str with
  | None => None
  | Some pos =>
      match stoi (StdString.substr 0 pos str) with
      | Converted m =>
          match stoi (StdString.substr_from (pos + 1) str) with
          | Converted n => Some (m, n)
          | _ => None
          end
      | _ => None
      end
  end.

(** parse_size_triple (main.cpp) *)
Definition parse_size_triple (str : string) : option (Z * Z * Z) :=
  match StdString.find ","%char str with
  | None => None
  | Some pos1 =>
      match StdString.find_from ","%char (pos1 + 1) str with
      | None => None
      | Some pos2 =>
          match stoi (StdString.substr 0 pos1 str) with
          | Converted m =>
              match stoi (StdString.substr (pos1 + 1) (pos2 - pos1 - 1) str)
              with
              | Converted n =>
                  match stoi (StdString.substr_from (pos2 + 1) str) with
                  | Converted k => Some (m, n, k)
                  | _ => None
                  end
              | _ => None
              end
          | _ => None
          end
      end
  end.

(** The exceptions that leave the parsers of config_parser.cpp. *)
Inductive Raised : Type :=
| runtime_error (what : string)
| stoi_invalid_argument
| stoi_out_of_range.

Module config.

(** [std::stoi] with its exceptions in flight. *)
Definition stoi_or_raise (s : string) : Raised + Z :=
  match stoi s with
  | Converted z      => inr z
  | invalid_argument => inl stoi_invalid_argument
  | out_of_range     => inl stoi_out_of_range
  end.

(** parse_size_pair (config_parser.cpp) *)
Definition parse_size_pair (str : string) : Raised + (Z * Z) :=
  match StdString.find ","%char str with
  | None => inl (runtime_error ("Invalid size format: " ++ str)%string)
  | Some pos =>
      match stoi_or_raise (StdString.substr 0 pos str) with
      | inl e => inl e
      | inr m =>
          match stoi_or_raise (StdString.substr_from (pos + 1) str) with
          | inl e => inl e
          | inr n => inr (m, n)
          end
      end
  end.

(** parse_size_triple (config_parser.cpp) *)
Definition parse_size_triple (str : string) : Raised + (Z * Z * Z) :=
  match StdString.find ","%char str with
  | None => inl (runtime_error ("Invalid size format: " ++ str)%string)
  | Some pos1 =>
      match StdString.find_from ","%char (pos1 + 1) str with
      | None => inl (runtime_error ("Invalid size format: " ++ str)%string)
      | Some pos2 =>
          match stoi_or_raise (StdString.substr 0 pos1 str) with
          | inl e => inl e
          | inr m =>
              match stoi_or_raise
                      (StdString.substr (pos1 + 1) (pos2 - pos1 - 1) str)
              with
              | inl e => inl e
              | inr n =>
                  match stoi_or_raise (StdString.substr_from (pos2 + 1) str)
                  with
                  | inl e => inl e
                  | inr k => inr (m, n, k)
                  end
              end
          end
      end
  end.

End config.

(** Whether a string starts with a decimal digit. *)
Definition starts_with_digit (s : string) : bool :=
  match s with
  | String c _  => match digit_of c with Some _ => true | None => false end
  | EmptyString => false
  end.

(** The number a decimal numeral continues [acc] to. *)
Fixpoint uint_value (d : Decimal.uint) (acc : Z) : Z :=
  match d with
  | Decimal.Nil  => acc
  | Decimal.D0 l => uint_value l (10 * acc)
  | Decimal.D1 l => uint_value l (10 * acc + 1)
  | Decimal.D2 l => uint_value l (10 * acc + 2)
  | Decimal.D3 l => uint_value l (10 * acc + 3)
  | Decimal.D4 l => uint_value l (10 * acc + 4)
  | Decimal.D5 l => uint_value l (10 * acc + 5)
  | Decimal.D6 l => uint_value l (10 * acc + 6)
  | Decimal.D7 l => uint_value l (10 * acc + 7)
  | Decimal.D8 l => uint_value l (10 * acc + 8)
  | Decimal.D9 l => uint_value l (10 * acc + 9)
  end.

(* ================================================================== *)
(** ** The program (main.cpp), from the command line on *)

(** The options that reach the measurement, as CLI11 leaves them in
    the variables of [main]: those that were not given hold their
    defaults, [1], [5], [3] and the empty string. *)
Record CommandLine : Type := {
  opt_threads : Z;                        (* int threads *)
  opt_cycles  : Z;                        (* int cycles *)
  opt_warmup  : Z;                        (* int warmup *)
  level1_str  : string;
  level2_str  : string;
  level3_str  : string
}.

(** [config.threads = threads; config.cycles = cycles;
    config.warmup = warmup;] *)
Definition override_execution (config : BenchmarkConfig) (cl : CommandLine)
  : BenchmarkConfig :=
  {| threads     := opt_threads cl;
     cycles      := opt_cycles cl;
     warmup      := opt_warmup cl;
     flush_cache := flush_cache config;
     level1_size := level1_size config;
     level2_size := level2_size config;
     level3_size := level3_size config;
     level1_functions := level1_functions config;
     level2_functions := level2_functions config;
     level3_functions := level3_functions config |}.

(** [config.level1_size = n;] and its two siblings. *)
Definition with_level1_size (n : Z) (config : BenchmarkConfig)
  : BenchmarkConfig :=
  {| threads     := threads config;
     cycles      := cycles config;
     warmup      := warmup config;
     flush_cache := flush_cache config;
     level1_size := Some n;
     level2_size := level2_size config;
     level3_size := level3_size config;
     level1_functions := level1_functions config;
     level2_functions := level2_functions config;
     level3_functions := level3_functions config |}.

Definition with_level2_size (size : Z * Z) (config : BenchmarkConfig)
  : BenchmarkConfig :=
  {| threads     := threads config;
     cycles      := cycles config;
     warmup      := warmup config;
     flush_cache := flush_cache config;
     level1_size := level1_size config;
     level2_size := Some size;
     level3_size := level3_size config;
     level1_functions := level1_functions config;
     level2_functions := level2_functions config;
     level3_functions := level3_functions config |}.

Definition with_level3_size (size : Z * Z * Z) (config : BenchmarkConfig)
  : BenchmarkConfig :=
  {| threads     := threads config;
     cycles      := cycles config;
     warmup      := warmup config;
     flush_cache := flush_cache config;
     level1_size := level1_size config;
     level2_size := level2_size config;
     level3_size := Some size;
     level1_functions := level1_functions config;
     level2_functions := level2_functions config;
     level3_functions := level3_functions config |}.

(** "Parse size arguments": the size strings that are not empty replace
    the sizes of the configuration, in the order of the levels; the
    first one that cannot be read is reported and ends the program
    ([None] is [return 1]). *)
Definition parse_size_arguments (config : BenchmarkConfig) (cl : CommandLine)
  : M (option BenchmarkConfig) :=
  r1 <- (if negb (StdString.empty (level1_str cl))
         then match stoull (level1_str cl) with
              | Converted n => ret (Some (with_level1_size n config))
              | _ =>
                  emit (EvError ("Invalid level1 size: "
                                 ++ level1_str cl)%string) ;;;
                  ret None
              end
         else ret (Some config)) ;;
  match r1 with
  | None => ret None
  | Some config =>
      r2 <- (if negb (StdString.empty (level2_str cl))
             then match parse_size_pair (level2_str cl) with
                  | Some size => ret (Some (with_level2_size size config))
                  | None =>
                      emit (EvError ("Invalid level2 size format: "
                                     ++ level2_str cl
                                     ++ ". Expected M,N")%string) ;;;
                      ret None
                  end
             else ret (Some config)) ;;
      match r2 with
      | None => ret None
      | Some config =>
          if negb (StdString.empty (level3_str cl))
          then match parse_size_triple (level3_str cl) with
               | Some size => ret (Some (with_level3_size size config))
               | None =>
                   emit (EvError ("Invalid level3 size format: "
                                  ++ level3_str cl
                                  ++ ". Expected M,N,K")%string) ;;;
                   ret None
               end
          else ret (Some config)
      end
  end.

Section Program.

Context {D : Type} {dops : DoubleOps D}.
Variable mach : Machine.

(** [main] from the loaded configuration and the command line on: the
    overrides, the size arguments, and then the validation and the run
    of [main] above. *)
Definition main_from_command_line (config : BenchmarkConfig)
           (cl : CommandLine) : M Z :=
  r <- parse_size_arguments (override_execution config cl) cl ;;
  match r with
  | None        => ret 1
  | Some config => main (D:=D) mach config
  end.

End Program.

(** The execution parameters a configuration file can set in its table
    [defaults]. *)
Definition with_execution (t c wu : Z) (cfg : BenchmarkConfig)
  : BenchmarkConfig :=
  {| threads     := t;
     cycles      := c;
     warmup      := wu;
     flush_cache := flush_cache cfg;
     level1_size := level1_size cfg;
     level2_size := level2_size cfg;
     level3_size := level3_size cfg;
     level1_functions := level1_functions cfg;
     level2_functions := level2_functions cfg;
     level3_functions := level3_functions cfg |}.

(** A command line with the default execution parameters and the given
    size strings. *)
Definition sizes_on_command_line (s1 s2 s3 : string) : CommandLine :=
  {| opt_threads := 1; opt_cycles := 5; opt_warmup := 3;
     level1_str := s1; level2_str := s2; level3_str := s3 |}.

(** An event other than the error of the size validation of [main]. *)
Definition not_no_sizes_error (e : Event) : Prop :=
  e <> EvError no_sizes_message.

(** The errors a trace records. *)
Definition errors (tr : list Event) : list Event := filter is_error tr.

(* ================================================================== *)
(** ** The Measurement Loop, step by step *)

Section LoopFacts.

Context {D : Type} {dops : DoubleOps D}.
Variable mach : Machine.

Lemma times_events_S n block :
  times_events (S n) block = block ++ times_events n block.
Proof. reflexivity. Qed.

(** One warmup iteration. *)
Lemma warm_step k flush cache_size w :
  exists t,
    (flush_if mach flush cache_size ;;; blas mach k) w
    = Ok tt {| now := t; blas_calls := S (blas_calls w);
               trace := trace w ++ warm_events k flush cache_size |}.
Proof.
  destruct flush; cbn; eexists; unfold bind, blas; cbn.
  - rewrite <- app_assoc. reflexivity.
  - reflexivity.
Qed.

(** One timed iteration: the sample is the duration of the backend
    invocation alone. *)
Lemma timed_step k flush cache_size timer (total : D) w :
  exists t timer',
    (flush_if mach flush cache_size ;;;
     timer1 <- utils.start timer ;;
     blas mach k ;;;
     timer2 <- utils.stop timer1 ;;
     ret (timer2, d_add total (utils.elapsed_ms timer2))) w
    = Ok (timer', d_add total (elapsed mach (blas_calls w)))
         {| now := t; blas_calls := S (blas_calls w);
            trace := trace w ++ timed_events k flush cache_size |}.
Proof.
  destruct flush; cbn; do 2 eexists;
    unfold bind, blas, utils.elapsed_ms, utils.elapsed_us, elapsed,
           sample_of_ns; cbn;
    rewrite Z.add_simpl_l, <- !app_assoc; reflexivity.
Qed.

Lemma warmup_loop k flush cache_size n :
  forall w, exists w',
    for_loop n (fun _ => flush_if mach flush cache_size ;;; blas mach k) tt w
    = Ok tt w'
    /\ blas_calls w' = (blas_calls w + n)%nat
    /\ trace w' = trace w ++ times_events n (warm_events k flush cache_size).
Proof.
  induction n as [|n IH]; intros w.
  - exists w. cbn. rewrite app_nil_r. repeat split. lia.
  - destruct (warm_step k flush cache_size w) as [t Hstep].
    cbn [for_loop]. unfold bind at 1. rewrite Hstep.
    destruct (IH {| now := t; blas_calls := S (blas_calls w);
                    trace := trace w ++ warm_events k flush cache_size |})
      as (w' & Hrun & Hcalls & Htrace).
    exists w'. split; [exact Hrun|]. cbn in Hcalls, Htrace. split; [lia|].
    rewrite Htrace, times_events_S. now rewrite app_assoc.
Qed.

Lemma timed_loop k flush cache_size n :
  forall timer (total : D) w, exists timer' w',
    for_loop n
      (fun '(timer, total_time) =>
         flush_if mach flush cache_size ;;;
         timer1 <- utils.start timer ;;
         blas mach k ;;;
         timer2 <- utils.stop timer1 ;;
         ret (timer2, d_add total_time (utils.elapsed_ms timer2)))
      (timer, total) w
    = Ok (timer',
          fold_left d_add (map (elapsed mach) (seq (blas_calls w) n)) total)
         w'
    /\ blas_calls w' = (blas_calls w + n)%nat
    /\ trace w' = trace w ++ times_events n (timed_events k flush cache_size).
Proof.
  induction n as [|n IH]; intros timer total w.
  - exists timer, w. cbn. rewrite app_nil_r. repeat split. lia.
  - destruct (timed_step k flush cache_size timer total w)
      as (t & timer1 & Hstep).
    cbn [for_loop]. unfold bind at 1. rewrite Hstep.
    destruct (IH timer1 (d_add total (elapsed mach (blas_calls w)))
                 {| now := t; blas_calls := S (blas_calls w);
                    trace := trace w ++ timed_events k flush cache_size |})
      as (timer' & w' & Hrun & Hcalls & Htrace).
    exists timer', w'. split; [exact Hrun|]. cbn in Hcalls, Htrace.
    split; [lia|].
    rewrite Htrace, times_events_S. now rewrite app_assoc.
Qed.

(** A [benchmark_*] function always returns: it performs the warmup
    invocations, then the timed ones, and yields the mean of the
    timed samples. *)
Lemma measurement_loop_spec k warmup cycles flush cache_size w :
  exists w',
    measurement_loop mach (blas mach k) warmup cycles flush cache_size w
    = Ok (loop_mean mach (blas_calls w + Z.to_nat warmup)
                    (Z.to_nat cycles) cycles) w'
    /\ blas_calls w'
       = (blas_calls w + Z.to_nat warmup + Z.to_nat cycles)%nat
    /\ trace w'
       = trace w ++ loop_events k (Z.to_nat warmup) (Z.to_nat cycles)
                                flush cache_size.
Proof.
  unfold measurement_loop.
  destruct (warmup_loop k flush cache_size (Z.to_nat warmup) w)
    as (w1 & Hwarm & Hcalls1 & Htrace1).
  destruct (timed_loop k flush cache_size (Z.to_nat cycles)
                       utils.Timer_new (d_of_Z 0) w1)
    as (timer' & w2 & Htimed & Hcalls2 & Htrace2).
  exists w2. unfold bind at 1. rewrite Hwarm.
  unfold bind at 1. rewrite Htimed. cbn [snd].
  unfold ret, loop_mean. rewrite Hcalls1.
  split; [reflexivity|]. split; [lia|].
  rewrite Htrace2, Htrace1. unfold loop_events. now rewrite app_assoc.
Qed.

End LoopFacts.

(* ================================================================== *)
(** ** Counting events *)

Lemma count_blas_app tr1 tr2 :
  count_blas (tr1 ++ tr2) = (count_blas tr1 + count_blas tr2)%nat.
Proof. unfold count_blas. now rewrite filter_app, length_app. Qed.

Lemma count_blas_times n block :
  count_blas (times_events n block) = (n * count_blas block)%nat.
Proof.
  induction n as [|n IH]; [reflexivity|].
  rewrite times_events_S, count_blas_app, IH. lia.
Qed.

Lemma count_blas_warm k flush cache_size :
  count_blas (warm_events k flush cache_size) = 1%nat.
Proof. now destruct flush. Qed.

Lemma count_blas_timed k flush cache_size :
  count_blas (timed_events k flush cache_size) = 1%nat.
Proof. now destruct flush. Qed.

Lemma count_blas_loop k w c flush cache_size :
  count_blas (loop_events k w c flush cache_size) = (w + c)%nat.
Proof.
  unfold loop_events.
  rewrite count_blas_app, !count_blas_times, count_blas_warm, count_blas_timed.
  lia.
Qed.

Lemma warnings_app tr1 tr2 :
  warnings (tr1 ++ tr2) = warnings tr1 ++ warnings tr2.
Proof.
  induction tr1 as [|e tr1 IH]; [reflexivity|].
  destruct e; cbn; rewrite IH; reflexivity.
Qed.

Lemma warnings_times n block :
  warnings block = [] -> warnings (times_events n block) = [].
Proof.
  intros Hb. induction n as [|n IH]; [reflexivity|].
  now rewrite times_events_S, warnings_app, Hb, IH.
Qed.

Lemma warnings_loop k w c flush cache_size :
  warnings (loop_events k w c flush cache_size) = [].
Proof.
  unfold loop_events. rewrite warnings_app, !warnings_times; trivial.
  - now destruct flush.
  - now destruct flush.
Qed.

(* ================================================================== *)
(** ** One benchmarked operation *)

Section SingleBenchmark.

Context {D : Type} {dops : DoubleOps D}.
Variable mach : Machine.

Lemma samples_length j w c : List.length (samples mach j w c) = c.
Proof.
  revert j. induction c as [|c IH]; intros j; cbn; [reflexivity|].
  now rewrite IH.
Qed.

(** The collection loop, when the benchmark function is a
    [benchmark_*] function called with cycle count 1: every cycle
    repeats the warmup. *)
Lemma collect_loop k warmup flush cache_size c :
  forall (acc : list D) w, exists w',
    for_loop c
      (fun times =>
         time_ms <- measurement_loop mach (blas mach k) warmup 1
                                     flush cache_size ;;
         ret (times ++ [time_ms]))
      acc w
    = Ok (acc ++ samples mach (blas_calls w) (Z.to_nat warmup) c) w'
    /\ blas_calls w' = (blas_calls w + c * (Z.to_nat warmup + 1))%nat
    /\ trace w'
       = trace w ++ times_events c (loop_events k (Z.to_nat warmup) 1
                                                flush cache_size).
Proof.
  induction c as [|c IH]; intros acc w.
  - exists w. cbn. rewrite !app_nil_r. repeat split. lia.
  - destruct (measurement_loop_spec mach k warmup 1 flush cache_size w)
      as (w1 & Hrun & Hcalls & Htrace).
    change (Z.to_nat 1) with 1%nat in Hrun, Hcalls, Htrace.
    cbn [for_loop]. unfold bind at 1. unfold bind at 1. rewrite Hrun.
    unfold ret at 1.
    destruct (IH (acc ++ [loop_mean mach (blas_calls w + Z.to_nat warmup) 1 1])
                 w1) as (w' & Hloop & Hcalls' & Htrace').
    exists w'. rewrite Hloop, Hcalls, <- app_assoc. cbn [samples app].
    split; [reflexivity|]. split; [lia|].
    rewrite Htrace', Htrace, times_events_S. now rewrite app_assoc.
Qed.

Lemma collect_times_spec self k warmup flush cache_size w :
  exists w',
    collect_times self (measurement_loop mach (blas mach k) warmup 1
                                         flush cache_size) w
    = Ok (samples mach (blas_calls w) (Z.to_nat warmup)
                  (Z.to_nat (cycles (m_config self)))) w'
    /\ blas_calls w'
       = (blas_calls w
          + Z.to_nat (cycles (m_config self)) * (Z.to_nat warmup + 1))%nat
    /\ trace w'
       = trace w ++ times_events (Z.to_nat (cycles (m_config self)))
                      (loop_events k (Z.to_nat warmup) 1 flush cache_size).
Proof.
  unfold collect_times.
  destruct (collect_loop k warmup flush cache_size
                         (Z.to_nat (cycles (m_config self))) [] w)
    as (w' & H & Hc & Ht).
  exists w'. now rewrite H.
Qed.

(** The statistics of a non-empty sample vector are defined. *)
Lemma summarise_cons self name cs fl (x : D) (l : list D) w :
  summarise self name cs fl (x :: l) w
  = Ok {| function_name := name;
          config_str    := cs;
          res_threads   := threads (m_config self);
          min_time_ms   := min_element_from x l;
          avg_time_ms   := average (x :: l);
          max_time_ms   := max_element_from x l;
          gflops        := gflops_of fl (average (x :: l));
          res_flops     := fl |} w.
Proof. reflexivity. Qed.

(** Those of an empty one are not. *)
Lemma summarise_nil self name cs fl w :
  summarise (D:=D) self name cs fl [] w = Undefined w.
Proof. reflexivity. Qed.

(** With at least one cycle, a benchmarked operation yields a result
    that carries the name, the descriptor, the thread count and the
    FLOP count it was given, and statistics of the collected samples. *)
Lemma run_single_benchmark_ok self name cs k warmup flush cache_size fl w :
  1 <= cycles (m_config self) ->
  exists res w',
    run_single_benchmark self name cs
      (measurement_loop mach (blas mach k) warmup 1 flush cache_size) fl w
    = Ok res w'
    /\ function_name res = name
    /\ config_str res = cs
    /\ res_threads res = threads (m_config self)
    /\ res_flops res = fl
    /\ avg_time_ms res
       = average (samples mach (blas_calls w) (Z.to_nat warmup)
                          (Z.to_nat (cycles (m_config self))))
    /\ gflops res = gflops_of fl (avg_time_ms res)
    /\ blas_calls w'
       = (blas_calls w
          + Z.to_nat (cycles (m_config self)) * (Z.to_nat warmup + 1))%nat
    /\ trace w'
       = trace w ++ times_events (Z.to_nat (cycles (m_config self)))
                      (loop_events k (Z.to_nat warmup) 1 flush cache_size).
Proof.
  intros Hc.
  destruct (collect_times_spec self k warmup flush cache_size w)
    as (w' & Hrun & Hcalls & Htrace).
  unfold run_single_benchmark, bind. rewrite Hrun.
  destruct (Z.to_nat (cycles (m_config self))) as [|c] eqn:Ec; [lia|].
  cbn [samples]. rewrite summarise_cons.
  eexists; exists w'. split; [reflexivity|]. cbn.
  repeat split; assumption.
Qed.

(** Without a cycle, there is nothing to take the minimum of. *)
Lemma run_single_benchmark_undefined self name cs (f : M D) fl w :
  cycles (m_config self) <= 0 ->
  run_single_benchmark self name cs f fl w = Undefined w.
Proof.
  intros Hc. unfold run_single_benchmark, collect_times, bind.
  replace (Z.to_nat (cycles (m_config self))) with 0%nat by lia.
  reflexivity.
Qed.

End SingleBenchmark.

(* ================================================================== *)
(** ** Dispatch over a list of operation names *)

Section Dispatch.

Context {D : Type}.
Variable body : string -> BenchmarkReport D -> M (BenchmarkReport D).
Variable push : BenchmarkReport D -> BenchmarkResult D -> BenchmarkReport D.
Variable known : string -> bool.
Variable prefix : string.

Section Running.

Variable good : string -> BenchmarkResult D -> Prop.
Variable per_op : nat.

Hypothesis Hknown : runs_known body push known good per_op.
Hypothesis Hunknown : skips_unknown body known prefix.

Lemma for_each_dispatch names :
  forall report w, exists rs w',
    for_each names body report w = Ok (fold_left push rs report) w'
    /\ Forall2 good (filter known names) rs
    /\ warnings (trace w')
       = warnings (trace w)
           ++ map (String.append prefix)
                  (filter (fun name => negb (known name)) names)
    /\ blas_calls w'
       = (blas_calls w + List.length (filter known names) * per_op)%nat.
Proof.
  induction names as [|name names IH]; intros report w.
  - exists [], w. cbn. rewrite app_nil_r. repeat split; [constructor|lia].
  - cbn [for_each filter]. unfold bind at 1.
    destruct (known name) eqn:Ek.
    + destruct (Hknown report w Ek) as (res & w1 & Hrun & Hgood & Hw & Hc).
      rewrite Hrun.
      destruct (IH (push report res) w1) as (rs & w' & Hrest & Hall & Hw' & Hc').
      exists (res :: rs), w'. cbn [fold_left negb].
      split; [exact Hrest|]. split; [now constructor|].
      split; [now rewrite Hw', Hw|]. cbn [List.length]. lia.
    + rewrite (Hunknown report w Ek).
      destruct (IH report
                   {| now := now w; blas_calls := blas_calls w;
                      trace := trace w ++ [EvWarn (prefix ++ name)%string] |})
        as (rs & w' & Hrest & Hall & Hw' & Hc').
      exists rs, w'. cbn [negb map].
      split; [exact Hrest|]. split; [exact Hall|].
      cbn [trace blas_calls] in Hw', Hc'.
      split; [|exact Hc'].
      rewrite Hw', warnings_app. cbn [warnings]. now rewrite <- app_assoc.
Qed.

End Running.

Section Stalling.

Hypothesis Hknown : stalls_known body known.
Hypothesis Hunknown : skips_unknown body known prefix.

Lemma for_each_stalls names :
  forall report w, exists w',
    for_each names body report w
    = (if existsb known names then Undefined w' else Ok report w')
    /\ blas_calls w' = blas_calls w
    /\ filter is_blas (trace w') = filter is_blas (trace w)
    /\ filter is_error (trace w') = filter is_error (trace w).
Proof.
  induction names as [|name names IH]; intros report w.
  - exists w. now cbn.
  - cbn [for_each existsb]. unfold bind at 1.
    destruct (known name) eqn:Ek.
    + rewrite (Hknown report w Ek). exists w. now cbn.
    + rewrite (Hunknown report w Ek). cbn [orb].
      destruct (IH report
                   {| now := now w; blas_calls := blas_calls w;
                      trace := trace w ++ [EvWarn (prefix ++ name)%string] |})
        as (w' & Hrest & Hc & Hb & He).
      exists w'. split; [exact Hrest|].
      cbn [trace blas_calls] in Hc, Hb, He.
      rewrite filter_app in Hb, He. cbn in Hb, He.
      rewrite app_nil_r in Hb, He. now repeat split.
Qed.

End Stalling.

End Dispatch.

Lemma fold_push_level1 {D} (rs : list (BenchmarkResult D)) :
  forall report,
    level1_results (fold_left push_level1 rs report) = level1_results report ++ rs
    /\ level2_results (fold_left push_level1 rs report) = level2_results report
    /\ level3_results (fold_left push_level1 rs report) = level3_results report
    /\ config (fold_left push_level1 rs report) = config report.
Proof.
  induction rs as [|r rs IH]; intros report; cbn.
  - now rewrite app_nil_r.
  - destruct (IH (push_level1 report r)) as (H1 & H2 & H3 & H4).
    rewrite H1, H2, H3, H4. cbn. now rewrite <- app_assoc.
Qed.

Lemma fold_push_level2 {D} (rs : list (BenchmarkResult D)) :
  forall report,
    level1_results (fold_left push_level2 rs report) = level1_results report
    /\ level2_results (fold_left push_level2 rs report) = level2_results report ++ rs
    /\ level3_results (fold_left push_level2 rs report) = level3_results report
    /\ config (fold_left push_level2 rs report) = config report.
Proof.
  induction rs as [|r rs IH]; intros report; cbn.
  - now rewrite app_nil_r.
  - destruct (IH (push_level2 report r)) as (H1 & H2 & H3 & H4).
    rewrite H1, H2, H3, H4. cbn. now rewrite <- app_assoc.
Qed.

Lemma fold_push_level3 {D} (rs : list (BenchmarkResult D)) :
  forall report,
    level1_results (fold_left push_level3 rs report) = level1_results report
    /\ level2_results (fold_left push_level3 rs report) = level2_results report
    /\ level3_results (fold_left push_level3 rs report) = level3_results report ++ rs
    /\ config (fold_left push_level3 rs report) = config report.
Proof.
  induction rs as [|r rs IH]; intros report; cbn.
  - now rewrite app_nil_r.
  - destruct (IH (push_level3 report r)) as (H1 & H2 & H3 & H4).
    rewrite H1, H2, H3, H4. cbn. now rewrite <- app_assoc.
Qed.

(* ================================================================== *)
(** ** The three levels *)

(** Splits the hypothesis that a name is, or is not, in a closed set
    into one case per name. *)
Ltac split_known H :=
  unfold recognized in H;
  cbn [existsb level1_names level2_names level3_names] in H;
  repeat match type of H with
         | (?a || ?b)%bool = true =>
             let E := fresh "E" in
             destruct a eqn:E;
             [ apply String.eqb_eq in E; subst; clear H | cbn [orb] in H ]
         | (?a || ?b)%bool = false =>
             let E := fresh "E" in
             apply orb_false_iff in H; destruct H as [E H]
         | false = true => discriminate H
         end.

Section Levels.

Context {D : Type} {dops : DoubleOps D}.
Variable mach : Machine.
Variable self : BenchmarkRunner.

Let cfg := m_config self.

(** Benchmarking one recognised operation and pushing its result. *)
Lemma dispatch_one (push : BenchmarkReport D -> BenchmarkResult D -> BenchmarkReport D)
      name cs k fl report w :
  1 <= cycles cfg ->
  exists res w',
    (result <- run_single_benchmark self name cs
                 (measurement_loop mach (blas mach k) (SizeT.wrap (warmup cfg)) 1
                                   (flush_cache cfg) (m_cache_size self)) fl ;;
     ret (push report result)) w
    = Ok (push report res) w'
    /\ function_name res = name
    /\ res_threads res = threads cfg
    /\ gflops res = gflops_of fl (avg_time_ms res)
    /\ res_flops res = fl
    /\ warnings (trace w') = warnings (trace w)
    /\ blas_calls w' = (blas_calls w + invocations_per_operation cfg)%nat.
Proof.
  intros Hc.
  destruct (run_single_benchmark_ok mach self name cs k
              (SizeT.wrap (warmup cfg)) (flush_cache cfg)
              (m_cache_size self) fl w Hc)
    as (res & w1 & Hrun & Hname & _ & Hthr & Hfl & _ & Hg & Hcalls & Htr).
  exists res, w1. unfold bind. rewrite Hrun.
  repeat split; try assumption.
  rewrite Htr, warnings_app, warnings_times, app_nil_r
    by apply warnings_loop.
  reflexivity.
Qed.

(** Without a cycle the same step is undefined. *)
Lemma dispatch_none (push : BenchmarkReport D -> BenchmarkResult D -> BenchmarkReport D)
      name cs (f : M D) fl report w :
  cycles cfg <= 0 ->
  (result <- run_single_benchmark self name cs f fl ;;
   ret (push report result)) w
  = Undefined w.
Proof.
  intros Hc. unfold bind.
  now rewrite run_single_benchmark_undefined.
Qed.

Lemma level1_runs_known n cs :
  1 <= cycles cfg ->
  level1_size cfg = Some n ->
  runs_known (level1_step mach self n cs) push_level1
             (recognized level1_names)
             (reported cfg) (invocations_per_operation cfg).
Proof.
  intros Hc Hsize name report w Hk.
  split_known Hk; unfold level1_step; cbn [String.eqb Ascii.eqb Bool.eqb];
    [ destruct (dispatch_one push_level1 "ddot" cs (Kdot n) (flops.dot n)
                             report w Hc)
        as (res & w1 & Hrun & Hname & Hthr & Hg & Hfl & Hw & Hcalls)
    | destruct (dispatch_one push_level1 "daxpy" cs (Kaxpy n) (flops.axpy n)
                             report w Hc)
        as (res & w1 & Hrun & Hname & Hthr & Hg & Hfl & Hw & Hcalls)
    | destruct (dispatch_one push_level1 "dscal" cs (Kscal n) (flops.scal n)
                             report w Hc)
        as (res & w1 & Hrun & Hname & Hthr & Hg & Hfl & Hw & Hcalls) ];
    exists res, w1; (split; [exact Hrun|]);
    (split; [|split; assumption]);
    unfold reported, consistent, model_flops;
    rewrite Hname, Hthr, Hg, Hfl; fold cfg; rewrite Hsize; now cbn.
Qed.

Lemma level1_skips_unknown n cs :
  skips_unknown (level1_step mach self n cs) (recognized level1_names)
                "Unknown Level 1 function: ".
Proof.
  intros name report w Hk. split_known Hk.
  unfold level1_step. now rewrite E, E0, E1.
Qed.

Lemma level1_stalls_known n cs :
  cycles cfg <= 0 ->
  stalls_known (level1_step mach self n cs) (recognized level1_names).
Proof.
  intros Hc name report w Hk.
  split_known Hk; unfold level1_step; cbn [String.eqb Ascii.eqb Bool.eqb];
    now apply dispatch_none.
Qed.

Lemma level2_runs_known m n cs :
  1 <= cycles cfg ->
  level2_size cfg = Some (m, n) ->
  runs_known (level2_step mach self m n cs) push_level2
             (recognized level2_names)
             (reported cfg) (invocations_per_operation cfg).
Proof.
  intros Hc Hsize name report w Hk.
  split_known Hk; unfold level2_step; cbn [String.eqb Ascii.eqb Bool.eqb].
  destruct (dispatch_one push_level2 "dgemv" cs
                         (Kgemv (SizeT.wrap m) (SizeT.wrap n))
                         (flops.gemv (SizeT.wrap m) (SizeT.wrap n))
                         report w Hc)
    as (res & w1 & Hrun & Hname & Hthr & Hg & Hfl & Hw & Hcalls).
  exists res, w1. split; [exact Hrun|].
  split; [|split; assumption].
  unfold reported, consistent, model_flops.
  rewrite Hname, Hthr, Hg, Hfl. fold cfg. rewrite Hsize. now cbn.
Qed.

Lemma level2_skips_unknown m n cs :
  skips_unknown (level2_step mach self m n cs) (recognized level2_names)
                "Unknown Level 2 function: ".
Proof.
  intros name report w Hk. split_known Hk.
  unfold level2_step. now rewrite E.
Qed.

Lemma level2_stalls_known m n cs :
  cycles cfg <= 0 ->
  stalls_known (level2_step mach self m n cs) (recognized level2_names).
Proof.
  intros Hc name report w Hk.
  split_known Hk; unfold level2_step; cbn [String.eqb Ascii.eqb Bool.eqb].
  now apply dispatch_none.
Qed.

Lemma level3_runs_known m n k cs :
  1 <= cycles cfg ->
  level3_size cfg = Some (m, n, k) ->
  runs_known (level3_step mach self m n k cs) push_level3
             (recognized level3_names)
             (reported cfg) (invocations_per_operation cfg).
Proof.
  intros Hc Hsize name report w Hk.
  split_known Hk; unfold level3_step; cbn [String.eqb Ascii.eqb Bool.eqb].
  destruct (dispatch_one push_level3 "dgemm" cs
                         (Kgemm (SizeT.wrap m) (SizeT.wrap n) (SizeT.wrap k))
                         (flops.gemm (SizeT.wrap m) (SizeT.wrap n) (SizeT.wrap k))
                         report w Hc)
    as (res & w1 & Hrun & Hname & Hthr & Hg & Hfl & Hw & Hcalls).
  exists res, w1. split; [exact Hrun|].
  split; [|split; assumption].
  unfold reported, consistent, model_flops.
  rewrite Hname, Hthr, Hg, Hfl. fold cfg. rewrite Hsize. now cbn.
Qed.

Lemma level3_skips_unknown m n k cs :
  skips_unknown (level3_step mach self m n k cs) (recognized level3_names)
                "Unknown Level 3 function: ".
Proof.
  intros name report w Hk. split_known Hk.
  unfold level3_step. now rewrite E.
Qed.

Lemma level3_stalls_known m n k cs :
  cycles cfg <= 0 ->
  stalls_known (level3_step mach self m n k cs) (recognized level3_names).
Proof.
  intros Hc name report w Hk.
  split_known Hk; unfold level3_step; cbn [String.eqb Ascii.eqb Bool.eqb].
  now apply dispatch_none.
Qed.

End Levels.

(* ================================================================== *)
(** ** The Orchestrator *)

Section Orchestrator.

Context {D : Type} {dops : DoubleOps D}.
Variable mach : Machine.
Variable self : BenchmarkRunner.

Let cfg := m_config self.

Lemma filter_known_nil {A} (known : list string) (size : option A) names :
  runs_level size names = false ->
  benchmarked known size names = [] /\ skipped known size names = [].
Proof.
  unfold runs_level, benchmarked, skipped.
  destruct size; cbn; [|easy].
  destruct names; cbn; [easy|discriminate].
Qed.

(** Level 1, as [run_all] runs it, with at least one cycle. *)
Lemma level1_guarded_runs :
  1 <= cycles cfg ->
  forall report w, exists rs w',
    (if runs_level (level1_size cfg) (level1_functions cfg)
     then run_level1 mach self report else ret report) w
    = Ok (fold_left push_level1 rs report) w'
    /\ Forall2 (reported cfg)
               (benchmarked level1_names (level1_size cfg) (level1_functions cfg))
               rs
    /\ warnings (trace w')
       = warnings (trace w)
           ++ map (String.append "Unknown Level 1 function: ")
                  (skipped level1_names (level1_size cfg) (level1_functions cfg))
    /\ blas_calls w'
       = (blas_calls w
          + List.length (benchmarked level1_names (level1_size cfg)
                                     (level1_functions cfg))
            * invocations_per_operation cfg)%nat.
Proof.
  intros Hc report w.
  destruct (runs_level (level1_size cfg) (level1_functions cfg)) eqn:Erun.
  - unfold run_level1. fold cfg.
    unfold runs_level in Erun. unfold benchmarked, skipped.
    destruct (level1_size cfg) as [n|] eqn:Hsize; [|discriminate].
    cbn [has_value].
    apply for_each_dispatch.
    + now apply level1_runs_known.
    + apply level1_skips_unknown.
  - destruct (filter_known_nil level1_names _ _ Erun) as [-> ->].
    exists [], w. cbn. rewrite app_nil_r. repeat split; [constructor|lia].
Qed.

Lemma level2_guarded_runs :
  1 <= cycles cfg ->
  forall report w, exists rs w',
    (if runs_level (level2_size cfg) (level2_functions cfg)
     then run_level2 mach self report else ret report) w
    = Ok (fold_left push_level2 rs report) w'
    /\ Forall2 (reported cfg)
               (benchmarked level2_names (level2_size cfg) (level2_functions cfg))
               rs
    /\ warnings (trace w')
       = warnings (trace w)
           ++ map (String.append "Unknown Level 2 function: ")
                  (skipped level2_names (level2_size cfg) (level2_functions cfg))
    /\ blas_calls w'
       = (blas_calls w
          + List.length (benchmarked level2_names (level2_size cfg)
                                     (level2_functions cfg))
            * invocations_per_operation cfg)%nat.
Proof.
  intros Hc report w.
  destruct (runs_level (level2_size cfg) (level2_functions cfg)) eqn:Erun.
  - unfold run_level2. fold cfg.
    unfold runs_level in Erun. unfold benchmarked, skipped.
    destruct (level2_size cfg) as [[m n]|] eqn:Hsize; [|discriminate].
    cbn [has_value].
    apply for_each_dispatch.
    + now apply level2_runs_known.
    + apply level2_skips_unknown.
  - destruct (filter_known_nil level2_names _ _ Erun) as [-> ->].
    exists [], w. cbn. rewrite app_nil_r. repeat split; [constructor|lia].
Qed.

Lemma level3_guarded_runs :
  1 <= cycles cfg ->
  forall report w, exists rs w',
    (if runs_level (level3_size cfg) (level3_functions cfg)
     then run_level3 mach self report else ret report) w
    = Ok (fold_left push_level3 rs report) w'
    /\ Forall2 (reported cfg)
               (benchmarked level3_names (level3_size cfg) (level3_functions cfg))
               rs
    /\ warnings (trace w')
       = warnings (trace w)
           ++ map (String.append "Unknown Level 3 function: ")
                  (skipped level3_names (level3_size cfg) (level3_functions cfg))
    /\ blas_calls w'
       = (blas_calls w
          + List.length (benchmarked level3_names (level3_size cfg)
                                     (level3_functions cfg))
            * invocations_per_operation cfg)%nat.
Proof.
  intros Hc report w.
  destruct (runs_level (level3_size cfg) (level3_functions cfg)) eqn:Erun.
  - unfold run_level3. fold cfg.
    unfold runs_level in Erun. unfold benchmarked, skipped.
    destruct (level3_size cfg) as [[[m n] k]|] eqn:Hsize; [|discriminate].
    cbn [has_value].
    apply for_each_dispatch.
    + now apply level3_runs_known.
    + apply level3_skips_unknown.
  - destruct (filter_known_nil level3_names _ _ Erun) as [-> ->].
    exists [], w. cbn. rewrite app_nil_r. repeat split; [constructor|lia].
Qed.

(** [run_all] with at least one cycle: the report holds, per level, one
    result for each recognised name, in order; each unrecognised name
    of a level that runs is warned about; each result costs the same
    number of backend invocations. *)
Lemma run_all_runs :
  1 <= cycles cfg ->
  forall w, exists report w',
    run_all mach self w = Ok report w'
    /\ config report = cfg
    /\ Forall2 (reported cfg)
               (benchmarked level1_names (level1_size cfg) (level1_functions cfg))
               (level1_results report)
    /\ Forall2 (reported cfg)
               (benchmarked level2_names (level2_size cfg) (level2_functions cfg))
               (level2_results report)
    /\ Forall2 (reported cfg)
               (benchmarked level3_names (level3_size cfg) (level3_functions cfg))
               (level3_results report)
    /\ warnings (trace w')
       = warnings (trace w)
           ++ map (String.append "Unknown Level 1 function: ")
                  (skipped level1_names (level1_size cfg) (level1_functions cfg))
           ++ map (String.append "Unknown Level 2 function: ")
                  (skipped level2_names (level2_size cfg) (level2_functions cfg))
           ++ map (String.append "Unknown Level 3 function: ")
                  (skipped level3_names (level3_size cfg) (level3_functions cfg))
    /\ blas_calls w'
       = (blas_calls w
          + (List.length (level1_results report)
             + List.length (level2_results report)
             + List.length (level3_results report))
            * invocations_per_operation cfg)%nat.
Proof.
  intros Hc w. unfold run_all. fold cfg.
  unfold bind at 1. unfold set_threads, emit.
  fold (runs_level (level1_size cfg) (level1_functions cfg)).
  fold (runs_level (level2_size cfg) (level2_functions cfg)).
  fold (runs_level (level3_size cfg) (level3_functions cfg)).
  match goal with
  | |- context [bind (if _ then run_level1 _ _ ?r else _) _ ?w0] =>
      destruct (level1_guarded_runs Hc r w0) as (rs1 & w1 & H1 & F1 & W1 & N1)
  end.
  unfold bind at 1. rewrite H1.
  match goal with
  | |- context [bind (if _ then run_level2 _ _ ?r else _) _ ?w0] =>
      destruct (level2_guarded_runs Hc r w0) as (rs2 & w2 & H2 & F2 & W2 & N2)
  end.
  unfold bind at 1. rewrite H2.
  match goal with
  | |- context [bind (if _ then run_level3 _ _ ?r else _) _ ?w0] =>
      destruct (level3_guarded_runs Hc r w0) as (rs3 & w3 & H3 & F3 & W3 & N3)
  end.
  unfold bind at 1. rewrite H3. unfold ret.
  eexists; exists w3. split; [reflexivity|].
  match goal with
  | |- context [fold_left push_level1 rs1 ?r0] =>
      destruct (fold_push_level1 rs1 r0) as (A1 & A2 & A3 & A4);
      destruct (fold_push_level2 rs2 (fold_left push_level1 rs1 r0))
        as (B1 & B2 & B3 & B4);
      destruct (fold_push_level3 rs3
                  (fold_left push_level2 rs2 (fold_left push_level1 rs1 r0)))
        as (C1 & C2 & C3 & C4)
  end.
  rewrite C1, C2, C3, C4, B1, B2, B3, B4, A1, A2, A3, A4.
  cbn [level1_results level2_results level3_results config app].
  cbn [trace blas_calls] in W1, N1.
  rewrite warnings_app in W1. cbn [warnings] in W1. rewrite app_nil_r in W1.
  repeat split; try assumption.
  - rewrite W3, W2, W1. now rewrite <- !app_assoc.
  - rewrite N3, N2, N1.
    rewrite <- (Forall2_length F1), <- (Forall2_length F2),
            <- (Forall2_length F3). lia.
Qed.

End Orchestrator.

(* ================================================================== *)
(** ** Runs that measure nothing *)

Section Idle.

Context {D : Type} {dops : DoubleOps D}.
Variable mach : Machine.
Variable self : BenchmarkRunner.

Let cfg := m_config self.

Lemma quiet_refl w : quiet w w.
Proof. now unfold quiet. Qed.

Lemma quiet_trans w1 w2 w3 : quiet w1 w2 -> quiet w2 w3 -> quiet w1 w3.
Proof. unfold quiet. intros (A & B & C) (A' & B' & C'). repeat split; congruence. Qed.

Lemma level1_guarded_stalls :
  cycles cfg <= 0 ->
  forall report w, exists w',
    (if runs_level (level1_size cfg) (level1_functions cfg)
     then run_level1 mach self report else ret report) w
    = (if reaches_known level1_names (level1_size cfg) (level1_functions cfg)
       then Undefined w' else Ok report w')
    /\ quiet w w'.
Proof.
  intros Hc report w. unfold runs_level, reaches_known, run_level1. fold cfg.
  destruct (level1_size cfg) as [n|]; cbn [has_value andb].
  - destruct (level1_functions cfg) as [|name names] eqn:En.
    + exists w. cbn. split; [reflexivity|apply quiet_refl].
    + cbn [empty negb]. rewrite <- En.
      apply for_each_stalls with (prefix := "Unknown Level 1 function: ").
      * now apply level1_stalls_known.
      * apply level1_skips_unknown.
  - exists w. split; [reflexivity|apply quiet_refl].
Qed.

Lemma level2_guarded_stalls :
  cycles cfg <= 0 ->
  forall report w, exists w',
    (if runs_level (level2_size cfg) (level2_functions cfg)
     then run_level2 mach self report else ret report) w
    = (if reaches_known level2_names (level2_size cfg) (level2_functions cfg)
       then Undefined w' else Ok report w')
    /\ quiet w w'.
Proof.
  intros Hc report w. unfold runs_level, reaches_known, run_level2. fold cfg.
  destruct (level2_size cfg) as [[m n]|]; cbn [has_value andb].
  - destruct (level2_functions cfg) as [|name names] eqn:En.
    + exists w. cbn. split; [reflexivity|apply quiet_refl].
    + cbn [empty negb]. rewrite <- En.
      apply for_each_stalls with (prefix := "Unknown Level 2 function: ").
      * now apply level2_stalls_known.
      * apply level2_skips_unknown.
  - exists w. split; [reflexivity|apply quiet_refl].
Qed.

Lemma level3_guarded_stalls :
  cycles cfg <= 0 ->
  forall report w, exists w',
    (if runs_level (level3_size cfg) (level3_functions cfg)
     then run_level3 mach self report else ret report) w
    = (if reaches_known level3_names (level3_size cfg) (level3_functions cfg)
       then Undefined w' else Ok report w')
    /\ quiet w w'.
Proof.
  intros Hc report w. unfold runs_level, reaches_known, run_level3. fold cfg.
  destruct (level3_size cfg) as [[[m n] k]|]; cbn [has_value andb].
  - destruct (level3_functions cfg) as [|name names] eqn:En.
    + exists w. cbn. split; [reflexivity|apply quiet_refl].
    + cbn [empty negb]. rewrite <- En.
      apply for_each_stalls with (prefix := "Unknown Level 3 function: ").
      * now apply level3_stalls_known.
      * apply level3_skips_unknown.
  - exists w. split; [reflexivity|apply quiet_refl].
Qed.

Lemma quiet_logged w e :
  is_blas e = false -> is_error e = false -> quiet w (logged w e).
Proof.
  intros Hb He. unfold quiet, logged. cbn. rewrite !filter_app. cbn.
  rewrite Hb, He, !app_nil_r. now repeat split.
Qed.

(** Without a cycle, [run_all] ends undefined as soon as a level that
    runs reaches a recognised name, and with its initial, empty report
    otherwise; the backend is never invoked and no error is logged. *)
Lemma run_all_stalls :
  cycles cfg <= 0 ->
  forall w, exists w',
    run_all mach self w
    = (if reaches_benchmark cfg then Undefined w'
       else Ok (empty_report D (detected mach) cfg) w')
    /\ quiet w w'.
Proof.
  intros Hc w. unfold run_all, reaches_benchmark. fold cfg.
  fold (empty_report D (detected mach) cfg).
  fold (runs_level (level1_size cfg) (level1_functions cfg)).
  fold (runs_level (level2_size cfg) (level2_functions cfg)).
  fold (runs_level (level3_size cfg) (level3_functions cfg)).
  unfold bind at 1. unfold set_threads, emit. fold (logged w (EvSetThreads (threads cfg))).
  assert (Q0 : quiet w (logged w (EvSetThreads (threads cfg))))
    by now apply quiet_logged.
  destruct (level1_guarded_stalls Hc (empty_report D (detected mach) cfg)
              (logged w (EvSetThreads (threads cfg)))) as (w1 & H1 & Q1).
  unfold bind at 1. rewrite H1.
  destruct (reaches_known level1_names _ _).
  { exists w1. split; [reflexivity|]. eapply quiet_trans; eassumption. }
  destruct (level2_guarded_stalls Hc (empty_report D (detected mach) cfg) w1)
    as (w2 & H2 & Q2).
  unfold bind at 1. rewrite H2.
  destruct (reaches_known level2_names _ _).
  { exists w2. split; [reflexivity|].
    eapply quiet_trans; [|eassumption]. eapply quiet_trans; eassumption. }
  destruct (level3_guarded_stalls Hc (empty_report D (detected mach) cfg) w2)
    as (w3 & H3 & Q3).
  unfold bind at 1. rewrite H3.
  exists w3. cbn [orb].
  split.
  - now destruct (reaches_known level3_names _ _).
  - eapply quiet_trans; [|eassumption].
    eapply quiet_trans; [|eassumption]. eapply quiet_trans; eassumption.
Qed.

(** When no level has both a size and operations, [run_all] only sets
    the thread count and returns its initial, empty report. *)
Lemma run_all_idle w :
  no_level_runs cfg = true ->
  run_all mach self w
  = Ok (empty_report D (detected mach) cfg)
       (logged w (EvSetThreads (threads cfg))).
Proof.
  unfold no_level_runs. intros H.
  apply andb_prop in H. destruct H as [H H3].
  apply andb_prop in H. destruct H as [H1 H2].
  apply negb_true_iff in H1, H2, H3.
  unfold run_all. fold cfg.
  fold (runs_level (level1_size cfg) (level1_functions cfg)).
  fold (runs_level (level2_size cfg) (level2_functions cfg)).
  fold (runs_level (level3_size cfg) (level3_functions cfg)).
  now rewrite H1, H2, H3.
Qed.

End Idle.

(* ================================================================== *)
(** ** Properties of the events of a run *)

Section TraceInvariant.

Context {D : Type} {dops : DoubleOps D}.
Variable mach : Machine.
Variable P : Event -> Prop.

Lemma keeps_ret {A} (a : A) : keeps P (ret a).
Proof. intros w H. exact H. Qed.

Lemma keeps_undefined {A} : keeps P (undefined (A:=A)).
Proof. intros w H. exact H. Qed.

Lemma keeps_throw {A} what : keeps P (throw (A:=A) what).
Proof. intros w H. exact H. Qed.

Lemma keeps_bind {A B} (c : M A) (k : A -> M B) :
  keeps P c -> (forall a, keeps P (k a)) -> keeps P (bind c k).
Proof.
  intros Hc Hk w H. specialize (Hc w H). unfold bind.
  destruct (c w) as [a w1|what w1|w1]; cbn in *.
  - now apply Hk.
  - exact Hc.
  - exact Hc.
Qed.

Lemma keeps_emit e : P e -> keeps P (emit e).
Proof.
  intros He w H. cbn. apply Forall_app. split; [exact H|].
  now constructor.
Qed.

Lemma keeps_advance ns : keeps P (advance ns).
Proof. intros w H. exact H. Qed.

Lemma keeps_clock_now : keeps P clock_now.
Proof. intros w H. exact H. Qed.

Lemma keeps_for_loop {S} n (body : S -> M S) :
  (forall s, keeps P (body s)) -> forall s, keeps P (for_loop n body s).
Proof.
  intros Hb. induction n as [|n IH]; intros s; cbn [for_loop].
  - apply keeps_ret.
  - apply keeps_bind; [apply Hb|exact IH].
Qed.

Lemma keeps_for_each {X S} (xs : list X) (body : X -> S -> M S) :
  (forall x s, keeps P (body x s)) -> forall s, keeps P (for_each xs body s).
Proof.
  intros Hb. induction xs as [|x xs IH]; intros s; cbn [for_each].
  - apply keeps_ret.
  - apply keeps_bind; [apply Hb|exact IH].
Qed.

Hypothesis Pstart : P EvTimerStart.
Hypothesis Pstop : P EvTimerStop.
Hypothesis Pblas : forall k, P (EvBlas k).
Hypothesis Pwarn : forall msg, P (EvWarn msg).
Hypothesis Pthreads : forall n, P (EvSetThreads n).

Lemma keeps_blas k : keeps P (blas mach k).
Proof.
  intros w H. cbn. apply Forall_app. split; [exact H|].
  constructor; [apply Pblas|constructor].
Qed.

Lemma keeps_measurement_loop k warmup cycles flush cache_size :
  P (EvFlush cache_size) ->
  keeps P (measurement_loop (D:=D) mach (blas mach k) warmup cycles
                            flush cache_size).
Proof.
  intros Pflush.
  assert (Hflush : keeps P (flush_if mach flush cache_size)).
  { destruct flush; [|apply keeps_ret].
    apply keeps_bind; [now apply keeps_emit|intros; apply keeps_advance]. }
  unfold measurement_loop.
  apply keeps_bind.
  - apply keeps_for_loop. intros _.
    apply keeps_bind; [exact Hflush|intros; apply keeps_blas].
  - intros _. apply keeps_bind; [|intros; apply keeps_ret].
    apply keeps_for_loop. intros [timer total].
    apply keeps_bind; [exact Hflush|intros _].
    apply keeps_bind.
    { apply keeps_bind; [now apply keeps_emit|intros _].
      apply keeps_bind; [apply keeps_clock_now|intros; apply keeps_ret]. }
    intros timer1. apply keeps_bind; [apply keeps_blas|intros _].
    apply keeps_bind; [|intros; apply keeps_ret].
    apply keeps_bind; [apply keeps_clock_now|intros t1].
    apply keeps_bind; [now apply keeps_emit|intros; apply keeps_ret].
Qed.

Lemma keeps_run_single_benchmark self name cs (f : M D) fl :
  keeps P f -> keeps P (run_single_benchmark self name cs f fl).
Proof.
  intros Hf. unfold run_single_benchmark. apply keeps_bind.
  - unfold collect_times. apply keeps_for_loop. intros times.
    apply keeps_bind; [exact Hf|intros; apply keeps_ret].
  - intros times. unfold summarise.
    destruct (min_element times), (max_element times);
      (apply keeps_ret || apply keeps_undefined).
Qed.

(** Every event of a run is such, provided the evictions of the
    runner's size are. *)
Lemma keeps_run_all self :
  P (EvFlush (m_cache_size self)) -> keeps P (run_all (D:=D) mach self).
Proof.
  intros Pflush.
  assert (Hone : forall name cs k fl report
                        (push : BenchmarkReport D -> BenchmarkResult D
                                -> BenchmarkReport D),
             keeps P (result <- run_single_benchmark self name cs
                                  (measurement_loop mach (blas mach k)
                                     (SizeT.wrap (warmup (m_config self))) 1
                                     (flush_cache (m_config self))
                                     (m_cache_size self)) fl ;;
                      ret (push report result))).
  { intros. apply keeps_bind; [|intros; apply keeps_ret].
    apply keeps_run_single_benchmark.
    now apply keeps_measurement_loop. }
  assert (Hwarn : forall msg (report : BenchmarkReport D),
             keeps P (emit (EvWarn msg) ;;; ret report)).
  { intros. apply keeps_bind; [apply keeps_emit, Pwarn|intros; apply keeps_ret]. }
  unfold run_all.
  apply keeps_bind; [apply keeps_emit, Pthreads|intros _].
  apply keeps_bind; [|intros report1; apply keeps_bind;
                      [|intros report2; apply keeps_bind;
                        [|intros; apply keeps_ret]]].
  - destruct (_ && _); [|apply keeps_ret]. unfold run_level1.
    destruct (level1_size (m_config self)) as [n|]; [|apply keeps_throw].
    apply keeps_for_each. intros name report. unfold level1_step.
    destruct (name =? "cblas_ddot")%string; [apply Hone|].
    destruct (name =? "cblas_daxpy")%string; [apply Hone|].
    destruct (name =? "cblas_dscal")%string; [apply Hone|apply Hwarn].
  - destruct (_ && _); [|apply keeps_ret]. unfold run_level2.
    destruct (level2_size (m_config self)) as [[m n]|]; [|apply keeps_throw].
    apply keeps_for_each. intros name report. unfold level2_step.
    destruct (name =? "cblas_dgemv")%string; [apply Hone|apply Hwarn].
  - destruct (_ && _); [|apply keeps_ret]. unfold run_level3.
    destruct (level3_size (m_config self)) as [[[m n] k]|]; [|apply keeps_throw].
    apply keeps_for_each. intros name report. unfold level3_step.
    destruct (name =? "cblas_dgemm")%string; [apply Hone|apply Hwarn].
Qed.

End TraceInvariant.

(* ================================================================== *)
(** ** FLOP model *)

Lemma wrap_small z : 0 <= z < SizeT.modulus -> SizeT.wrap z = z.
Proof. apply Z.mod_small. Qed.

Lemma mul_wrap_l a b : SizeT.mul (SizeT.wrap a) b = SizeT.wrap (a * b).
Proof. unfold SizeT.mul, SizeT.wrap. apply Z.mul_mod_idemp_l. discriminate. Qed.

(** C3 (counterexample): for N = 2^63 the product 2N does not fit in a
    [std::size_t]; [flops::dot] returns 0, not 2N. *)
Lemma C3_counterexample :
  0 <= 2 ^ 63 /\ flops.dot (2 ^ 63) = 0 /\ 2 * 2 ^ 63 <> 0.
Proof. repeat split; discriminate. Qed.

(** C3 (amended): the FLOP functions return 2N, 2N, N, 2MN and 2MNK
    whenever that count is below 2^64, and its residue modulo 2^64 in
    general; [scal] returns N always. *)
Theorem C3_flop_model :
  (forall n, 0 <= n -> 2 * n < SizeT.modulus ->
             flops.dot n = 2 * n /\ flops.axpy n = 2 * n)
  /\ (forall n, flops.scal n = n)
  /\ (forall m n, 0 <= m -> 0 <= n -> 2 * m * n < SizeT.modulus ->
                  flops.gemv m n = 2 * m * n)
  /\ (forall m n k, 0 <= m -> 0 <= n -> 0 <= k ->
                    2 * m * n * k < SizeT.modulus ->
                    flops.gemm m n k = 2 * m * n * k)
  /\ (forall m n k,
         flops.dot n = (2 * n) mod SizeT.modulus
         /\ flops.axpy n = (2 * n) mod SizeT.modulus
         /\ flops.gemv m n = (2 * m * n) mod SizeT.modulus
         /\ flops.gemm m n k = (2 * m * n * k) mod SizeT.modulus).
Proof.
  assert (Hgen : forall m n k,
             flops.dot n = (2 * n) mod SizeT.modulus
             /\ flops.axpy n = (2 * n) mod SizeT.modulus
             /\ flops.gemv m n = (2 * m * n) mod SizeT.modulus
             /\ flops.gemm m n k = (2 * m * n * k) mod SizeT.modulus).
  { intros m n k. unfold flops.dot, flops.axpy, flops.gemv, flops.gemm.
    repeat split; try reflexivity.
    - unfold SizeT.mul at 2. now rewrite mul_wrap_l.
    - unfold SizeT.mul at 3. now rewrite !mul_wrap_l. }
  split; [|split; [|split; [|split]]].
  - intros n Hn Hlt. destruct (Hgen 0 n 0) as (-> & -> & _).
    split; apply Z.mod_small; lia.
  - reflexivity.
  - intros m n Hm Hn Hlt. destruct (Hgen m n 0) as (_ & _ & -> & _).
    apply Z.mod_small. nia.
  - intros m n k Hm Hn Hk Hlt. destruct (Hgen m n k) as (_ & _ & _ & ->).
    apply Z.mod_small. nia.
  - exact Hgen.
Qed.

(** C3 (witness): the default sizes of the program. *)
Lemma C3_flop_model_witness :
  flops.dot 1000000 = 2 * 1000000
  /\ flops.gemv 1024 1024 = 2 * 1024 * 1024
  /\ flops.gemm 1024 1024 1024 = 2 * 1024 * 1024 * 1024.
Proof.
  destruct C3_flop_model as (Hdot & _ & Hgemv & Hgemm & _).
  split; [|split].
  - apply Hdot; [lia | reflexivity].
  - apply Hgemv; [lia | lia | reflexivity].
  - apply Hgemm; [lia | lia | lia | reflexivity].
Defined.

(* ================================================================== *)
(** ** Effective eviction size *)

(** C4: the runner's eviction size is the 16 MiB default when the
    detected total (L1 + L2 + L3, as [get_total_cache] computes it) is
    below 1 MiB and that total otherwise; the total is the plain sum
    whenever the sum fits a [std::size_t]; a total of 512 KiB gives
    16 MiB, not 512 KiB; and every eviction of a run is of that
    effective size. *)
Theorem C4_effective_cache_size {D : Type} {dops : DoubleOps D}
        (mach : Machine) (cfg : BenchmarkConfig) :
  let info := detected mach in
  let total := get_total_cache info in
  let effective := m_cache_size (BenchmarkRunner_new mach cfg) in
  (total < 1024 * 1024 -> effective = 16 * 1024 * 1024)
  /\ (1024 * 1024 <= total -> effective = total)
  /\ (0 <= l1_cache info -> 0 <= l2_cache info -> 0 <= l3_cache info ->
      l1_cache info + l2_cache info + l3_cache info < SizeT.modulus ->
      total = l1_cache info + l2_cache info + l3_cache info)
  /\ (total = 512 * 1024 -> effective = 16 * 1024 * 1024
                            /\ effective <> 512 * 1024)
  /\ keeps (flush_size_is effective)
           (run_all (D:=D) mach (BenchmarkRunner_new mach cfg)).
Proof.
  cbv zeta. split; [|split; [|split; [|split]]].
  5: { apply keeps_run_all; cbn; trivial. }
  all: unfold BenchmarkRunner_new, get_total_cache; cbn [m_cache_size];
    set (total := SizeT.add (SizeT.add _ _) _);
    change (1024 * 1024) with 1048576;
    change (16 * 1024 * 1024) with 16777216;
    destruct (Z.ltb_spec total 1048576) as [Hlt|Hge]; try lia.
  - intros H1 H2 H3 Hsum. subst total. unfold SizeT.add.
    rewrite (wrap_small (z := _ + l2_cache _)) by lia. apply wrap_small. lia.
  - intros H1 H2 H3 Hsum. subst total. unfold SizeT.add.
    rewrite (wrap_small (z := _ + l2_cache _)) by lia. apply wrap_small. lia.
Qed.

(** C4 (witness): a machine whose caches add up to 512 KiB, and one of
    its runs. *)
Lemma C4_effective_cache_size_witness :
  get_total_cache stub_info = 512 * 1024
  /\ m_cache_size (BenchmarkRunner_new (steady_machine 1) get_default)
     = 16 * 1024 * 1024
  /\ Forall (flush_size_is (16 * 1024 * 1024))
            (trace (final_world
                      (run_all (D:=float) (steady_machine 1)
                               (BenchmarkRunner_new
                                  (steady_machine 1)
                                  (level1_only 2 1 ["cblas_dscal"]))
                               initial_world))).
Proof.
  split; [reflexivity|]. split.
  - apply (C4_effective_cache_size (D:=float) (steady_machine 1) get_default).
    reflexivity.
  - apply (C4_effective_cache_size (D:=float) (steady_machine 1)
             (level1_only 2 1 ["cblas_dscal"])).
    constructor.
Defined.

(* ================================================================== *)
(** ** Cache Evictor *)

Section EvictorFacts.

Context {D : Type} {dops : DoubleOps D}.

Lemma store_at (pre : list D) x post v :
  utils.store (List.length pre) v (pre ++ x :: post) = pre ++ v :: post.
Proof.
  induction pre as [|y pre IH]; cbn; [reflexivity|]. now rewrite IH.
Qed.

(** The loop from index [i] on: the elements before [i] are kept, the
    [n] elements from [i] on are read, then overwritten with their
    index, one after the other. *)
Lemma touch_from_spec n :
  forall i (pre post : list D) s log,
    List.length pre = i ->
    List.length post = n ->
    let st := utils.touch_from i n
                {| utils.buffer := pre ++ post; utils.sum := s;
                   utils.accesses := log |} in
    utils.buffer st = pre ++ map (fun j => d_of_Z (Z.of_nat j)) (seq i n)
    /\ utils.accesses st
       = log ++ flat_map (fun j => [utils.Rd j; utils.Wr j]) (seq i n).
Proof.
  induction n as [|n IH]; intros i pre post s log Hpre Hpost; cbv zeta.
  - destruct post; [|discriminate]. cbn. now rewrite !app_nil_r.
  - destruct post as [|x post]; [discriminate|].
    cbn [utils.touch_from]. unfold utils.touch.
    cbn [utils.buffer utils.sum utils.accesses].
    subst i. rewrite store_at. set (i := List.length pre).
    replace (pre ++ d_of_Z (Z.of_nat i) :: post)
      with ((pre ++ [d_of_Z (Z.of_nat i)]) ++ post)
      by now rewrite <- app_assoc.
    specialize (IH (S i) (pre ++ [d_of_Z (Z.of_nat i)]) post
                   (d_add s (nth i (pre ++ x :: post) (d_of_Z 0)))
                   (log ++ [utils.Rd i; utils.Wr i])).
    cbv zeta in IH. destruct IH as [Hb Ha].
    + rewrite length_app. cbn. subst i. lia.
    + now injection Hpost.
    + rewrite Hb, Ha. cbn [seq map flat_map].
      now rewrite <- !app_assoc.
Qed.

End EvictorFacts.




(* ================================================================== *)
(** ** Throughput *)

Local Open Scope Q_scope.

(** In exact arithmetic the throughput is FLOPs / (ms x 10^6). *)
Lemma gflops_of_exact (F : Z) (t : Q) :
  gflops_of (D:=Q) F t == inject_Z F / (t * inject_Z (10 ^ 6)).
Proof.
  unfold gflops_of, d_div, d_mul, d_of_Z, exact.
  change (inject_Z 1000) with (1000 # 1).
  change (inject_Z (10 ^ 9)) with (1000000000 # 1).
  change (inject_Z (10 ^ 6)) with (1000000 # 1).
  destruct (Qeq_dec t 0) as [Ht|Ht].
  - assert (E1 : t / (1000 # 1) * (1000000000 # 1) == 0)
      by (rewrite Ht; reflexivity).
    assert (E2 : t * (1000000 # 1) == 0) by (rewrite Ht; reflexivity).
    now rewrite E1, E2.
  - field. repeat split; (assumption || discriminate).
Qed.

(** ... hence a positive multiple of the inverse of the latency. *)
Lemma gflops_of_inverse (F : Z) (t : Q) :
  ~ t == 0 ->
  gflops_of (D:=Q) F t == (inject_Z F / inject_Z (10 ^ 6)) * / t.
Proof.
  intros Ht. rewrite gflops_of_exact.
  change (inject_Z (10 ^ 6)) with (1000000 # 1).
  field. repeat split; (assumption || discriminate).
Qed.

Lemma flops_scale_pos (F : Z) :
  (0 < F)%Z -> 0 < inject_Z F / inject_Z (10 ^ 6).
Proof.
  intros HF. apply Qlt_shift_div_l; [reflexivity|].
  rewrite Qmult_0_l. change 0 with (inject_Z 0). now rewrite <- Zlt_Qlt.
Qed.

(** C9 (counterexample): in binary64, at 2,000,000 FLOPs, the adjacent
    latencies 0x1.e666666666666p+0 and 0x1.e666666666667p+0 ms (about
    1.9 ms) give the same throughput: the shorter latency does not
    give a strictly greater one. *)
Lemma C9_counterexample :
  let t1 := 0x1.e666666666666p+0%float in
  let t2 := 0x1.e666666666667p+0%float in
  PrimFloat.ltb 0%float t1 = true
  /\ PrimFloat.ltb t1 t2 = true
  /\ PrimFloat.ltb (gflops_of 2000000 t2) (gflops_of 2000000 t1) = false
  /\ gflops_of 2000000 t1 = gflops_of 2000000 t2.
Proof. vm_compute. repeat split. Qed.

(** C9 (amended): in exact arithmetic the throughput, FLOPs divided by
    (latency in seconds x 10^9), is strictly greater at the shorter of
    two positive latencies and strictly positive, for a positive FLOP
    count. *)
Theorem C9_throughput_exact (F : Z) (t1 t2 : Q) :
  (0 < F)%Z -> 0 < t1 -> t1 < t2 ->
  gflops_of (D:=Q) F t1
  == inject_Z F / ((t1 / inject_Z 1000) * inject_Z (10 ^ 9))
  /\ gflops_of (D:=Q) F t2 < gflops_of (D:=Q) F t1
  /\ 0 < gflops_of (D:=Q) F t1
  /\ 0 < gflops_of (D:=Q) F t2.
Proof.
  intros HF H1 H12.
  assert (H2 : 0 < t2) by (eapply Qlt_trans; eassumption).
  assert (N1 : ~ t1 == 0) by (intros E; rewrite E in H1; discriminate).
  assert (N2 : ~ t2 == 0) by (intros E; rewrite E in H2; discriminate).
  pose proof (flops_scale_pos HF) as Hc.
  split; [reflexivity|].
  rewrite !gflops_of_inverse by assumption.
  split; [|split].
  - apply Qmult_lt_l; [exact Hc|].
    now apply -> Qinv_lt_contravar.
  - apply Qmult_lt_0_compat; [exact Hc|now apply Qinv_lt_0_compat].
  - apply Qmult_lt_0_compat; [exact Hc|now apply Qinv_lt_0_compat].
Qed.

(** C9 (witness): a dot product of a million elements at 1 ms and 2 ms. *)
Lemma C9_throughput_exact_witness :
  gflops_of (D:=Q) 2000000 2 < gflops_of (D:=Q) 2000000 1.
Proof.
  apply (C9_throughput_exact (F:=2000000) (t1:=1) (t2:=2));
    reflexivity.
Defined.

Local Close Scope Q_scope.

(* ================================================================== *)
(** ** Result Aggregator *)

Local Open Scope Q_scope.

Lemma d_lt_exact (x y : Q) : d_lt x y = true <-> x < y.
Proof.
  cbn [d_lt exact]. rewrite negb_true_iff.
  split.
  - intros H. apply Qnot_le_lt. intros Hle.
    apply Qle_bool_iff in Hle. congruence.
  - intros H. destruct (Qle_bool y x) eqn:E; [|reflexivity].
    apply Qle_bool_iff in E. exfalso. now apply (Qlt_not_le x y).
Qed.

Lemma d_lt_exact_false (x y : Q) : d_lt x y = false <-> y <= x.
Proof.
  cbn [d_lt exact]. rewrite negb_false_iff. apply Qle_bool_iff.
Qed.

(** [std::min_element] returns an element of the range that no element
    is below. *)
Lemma min_element_from_exact (l : list Q) :
  forall best,
    In (min_element_from best l) (best :: l)
    /\ min_element_from best l <= best
    /\ (forall x, In x l -> min_element_from best l <= x).
Proof.
  induction l as [|y l IH]; intros best; cbn [min_element_from].
  - repeat split; [now left|apply Qle_refl|intros x []].
  - destruct (d_lt y best) eqn:E.
    + apply d_lt_exact in E.
      destruct (IH y) as (Hin & Hle & Hall).
      split; [|split].
      * destruct Hin as [<-|Hin]; [right; now left|right; now right].
      * apply Qle_trans with y; [exact Hle|now apply Qlt_le_weak].
      * intros x [<-|Hx]; [exact Hle|now apply Hall].
    + apply d_lt_exact_false in E.
      destruct (IH best) as (Hin & Hle & Hall).
      split; [|split].
      * destruct Hin as [<-|Hin]; [now left|right; now right].
      * exact Hle.
      * intros x [<-|Hx]; [eapply Qle_trans; eassumption|now apply Hall].
Qed.

(** [std::max_element] returns an element of the range that no element
    is above. *)
Lemma max_element_from_exact (l : list Q) :
  forall best,
    In (max_element_from best l) (best :: l)
    /\ best <= max_element_from best l
    /\ (forall x, In x l -> x <= max_element_from best l).
Proof.
  induction l as [|y l IH]; intros best; cbn [max_element_from].
  - repeat split; [now left|apply Qle_refl|intros x []].
  - destruct (d_lt best y) eqn:E.
    + apply d_lt_exact in E.
      destruct (IH y) as (Hin & Hle & Hall).
      split; [|split].
      * destruct Hin as [<-|Hin]; [right; now left|right; now right].
      * apply Qle_trans with y; [now apply Qlt_le_weak|exact Hle].
      * intros x [<-|Hx]; [exact Hle|now apply Hall].
    + apply d_lt_exact_false in E.
      destruct (IH best) as (Hin & Hle & Hall).
      split; [|split].
      * destruct Hin as [<-|Hin]; [now left|right; now right].
      * exact Hle.
      * intros x [<-|Hx]; [eapply Qle_trans; eassumption|now apply Hall].
Qed.

(** [std::accumulate] from the left computes the sum. *)
Lemma accumulate_exact (l : list Q) :
  forall init, accumulate l init == init + Qsum l.
Proof.
  unfold accumulate.
  induction l as [|x l IH]; intros init; cbn [fold_left Qsum fold_right].
  - ring.
  - rewrite IH. change (d_add init x) with (init + x). fold (Qsum l). ring.
Qed.

Lemma Qsum_lower (lo : Q) (l : list Q) :
  (forall x, In x l -> lo <= x) ->
  inject_Z (Z.of_nat (List.length l)) * lo <= Qsum l.
Proof.
  induction l as [|x l IH]; intros H.
  - cbn. rewrite Qmult_0_l. apply Qle_refl.
  - cbn [List.length Qsum fold_right]. fold (Qsum l).
    rewrite Nat2Z.inj_succ. unfold Z.succ. rewrite inject_Z_plus.
    assert (Hx : lo <= x) by (apply H; now left).
    assert (Hl : inject_Z (Z.of_nat (List.length l)) * lo <= Qsum l)
      by (apply IH; intros y Hy; apply H; now right).
    change (inject_Z 1) with 1. lra.
Qed.

Lemma Qsum_upper (hi : Q) (l : list Q) :
  (forall x, In x l -> x <= hi) ->
  Qsum l <= inject_Z (Z.of_nat (List.length l)) * hi.
Proof.
  induction l as [|x l IH]; intros H.
  - cbn. rewrite Qmult_0_l. apply Qle_refl.
  - cbn [List.length Qsum fold_right]. fold (Qsum l).
    rewrite Nat2Z.inj_succ. unfold Z.succ. rewrite inject_Z_plus.
    assert (Hx : x <= hi) by (apply H; now left).
    assert (Hl : Qsum l <= inject_Z (Z.of_nat (List.length l)) * hi)
      by (apply IH; intros y Hy; apply H; now right).
    change (inject_Z 1) with 1. lra.
Qed.

Lemma length_pos (l : list Q) :
  l <> [] -> 0 < inject_Z (Z.of_nat (List.length l)).
Proof.
  intros H. destruct l as [|x l]; [congruence|].
  change 0 with (inject_Z 0). rewrite <- Zlt_Qlt. cbn [List.length]. lia.
Qed.

(** In exact arithmetic the reported average is the arithmetic mean. *)
Lemma average_exact (l : list Q) : average l == Qmean l.
Proof.
  unfold average, Qmean. rewrite accumulate_exact.
  cbn [d_div d_of_Z exact]. change (inject_Z 0) with 0.
  now rewrite Qplus_0_l.
Qed.

(** The mean lies between any lower and any upper bound of the samples. *)
Lemma Qmean_between (lo hi : Q) (l : list Q) :
  l <> [] ->
  (forall x, In x l -> lo <= x) ->
  (forall x, In x l -> x <= hi) ->
  lo <= Qmean l <= hi.
Proof.
  intros Hne Hlo Hhi. pose proof (length_pos Hne) as Hn.
  unfold Qmean. split.
  - apply Qle_shift_div_l; [exact Hn|].
    rewrite Qmult_comm. now apply Qsum_lower.
  - apply Qle_shift_div_r; [exact Hn|].
    rewrite Qmult_comm. now apply Qsum_upper.
Qed.

Local Close Scope Q_scope.

(** What [run_single_benchmark] returns, it computed from the samples
    it collected. *)
Lemma run_single_benchmark_inv {D : Type} {dops : DoubleOps D}
      self name cs (f : M D) fl w res w' :
  run_single_benchmark self name cs f fl w = Ok res w' ->
  exists x l,
    collect_times self f w = Ok (x :: l) w'
    /\ function_name res = name
    /\ config_str res = cs
    /\ res_threads res = threads (m_config self)
    /\ res_flops res = fl
    /\ min_time_ms res = min_element_from x l
    /\ max_time_ms res = max_element_from x l
    /\ avg_time_ms res = average (x :: l)
    /\ gflops res = gflops_of fl (average (x :: l)).
Proof.
  unfold run_single_benchmark, bind.
  destruct (collect_times self f w) as [times w1|what w1|w1];
    [|discriminate|discriminate].
  destruct times as [|x l]; [discriminate|].
  rewrite summarise_cons. intros H. injection H as <- <-.
  exists x, l. cbn. repeat split.
Qed.

(** C2 (counterexample): in binary64, three timed calls of 100
    microseconds each give the samples 0.1, 0.1, 0.1 ms; the reported
    average is 0x1.999999999999bp-4 (0.10000000000000002), above the
    reported maximum 0x1.999999999999ap-4 (0.1): [avg <= max] fails and
    the average is not the arithmetic mean. *)
Lemma C2_counterexample :
  exists res w',
    run_single_benchmark
      (BenchmarkRunner_new (steady_machine 100)
                           (level1_only 3 0 ["cblas_ddot"]))
      "ddot" "N=1000000"
      (benchmark_dot (D:=float) (steady_machine 100) 1000000 0 1 true 16777216)
      (flops.dot 1000000) initial_world
    = Ok res w'
    /\ min_time_ms res = 0x1.999999999999ap-4%float
    /\ max_time_ms res = 0x1.999999999999ap-4%float
    /\ avg_time_ms res = 0x1.999999999999bp-4%float
    /\ PrimFloat.ltb (max_time_ms res) (avg_time_ms res) = true.
Proof.
  eexists. eexists. split; [vm_compute; reflexivity|].
  vm_compute. repeat split.
Qed.

(** C2 (amended): in exact arithmetic, whenever a benchmarked operation
    yields a result, the samples are not empty, the reported minimum and
    maximum are samples that no sample is below, respectively above, the
    reported average is the arithmetic mean of the samples, and
    min <= avg <= max.  With five cycles, no warmup and timed calls
    stubbed to 1, 2, 3, 4 and 5 ms, the report is min = 1, avg = 3,
    max = 5, in exact arithmetic and in binary64 alike. *)
Theorem C2_aggregator_exact :
  (forall self name cs (f : M Q) fl w res w',
      run_single_benchmark self name cs f fl w = Ok res w' ->
      exists times,
        collect_times self f w = Ok times w'
        /\ times <> []
        /\ In (min_time_ms res) times
        /\ (forall x, In x times -> (min_time_ms res <= x)%Q)
        /\ In (max_time_ms res) times
        /\ (forall x, In x times -> (x <= max_time_ms res)%Q)
        /\ (avg_time_ms res == Qmean times)%Q
        /\ (min_time_ms res <= avg_time_ms res <= max_time_ms res)%Q)
  /\ (exists report w',
         run_all (D:=Q) rising_machine
                 (BenchmarkRunner_new rising_machine
                                      (level1_only 5 0 ["cblas_ddot"]))
                 initial_world
         = Ok report w'
         /\ Forall2 (fun r '(lo, mean, hi) =>
                       (min_time_ms r == lo)%Q /\ (avg_time_ms r == mean)%Q
                       /\ (max_time_ms r == hi)%Q)
                    (level1_results report) [(1, 3, 5)%Q])
  /\ (exists report w',
         run_all (D:=float) rising_machine
                 (BenchmarkRunner_new rising_machine
                                      (level1_only 5 0 ["cblas_ddot"]))
                 initial_world
         = Ok report w'
         /\ map (fun r => (min_time_ms r, avg_time_ms r, max_time_ms r))
                (level1_results report)
            = [(1, 3, 5)%float]).
Proof.
  split; [|split].
  - intros self name cs f fl w res w' Hrun.
    destruct (run_single_benchmark_inv _ _ _ _ _ _ Hrun)
      as (x & l & Hcollect & _ & _ & _ & _ & Hmin & Hmax & Havg & _).
    destruct (min_element_from_exact l x) as (Imin & Lmin & Amin).
    destruct (max_element_from_exact l x) as (Imax & Lmax & Amax).
    assert (Hlo : forall y, In y (x :: l) -> (min_time_ms res <= y)%Q).
    { rewrite Hmin. intros y [<-|Hy]; [exact Lmin|now apply Amin]. }
    assert (Hhi : forall y, In y (x :: l) -> (y <= max_time_ms res)%Q).
    { rewrite Hmax. intros y [<-|Hy]; [exact Lmax|now apply Amax]. }
    assert (Hmean : (avg_time_ms res == Qmean (x :: l))%Q)
      by (rewrite Havg; apply average_exact).
    exists (x :: l). split; [exact Hcollect|]. split; [discriminate|].
    split; [now rewrite Hmin|]. split; [exact Hlo|].
    split; [now rewrite Hmax|]. split; [exact Hhi|].
    split; [exact Hmean|].
    rewrite Hmean. apply Qmean_between; [discriminate|exact Hlo|exact Hhi].
  - eexists. eexists. split; [vm_compute; reflexivity|].
    cbn [level1_results]. constructor; [|constructor].
    cbn. repeat split.
  - eexists. eexists. split; [vm_compute; reflexivity|].
    vm_compute. reflexivity.
Qed.

(** C2 (witness): the stubbed run with samples 1, 2, 3, 4, 5 ms, in
    exact arithmetic. *)
Lemma C2_aggregator_exact_witness :
  match run_single_benchmark
          (BenchmarkRunner_new rising_machine (level1_only 5 0 ["cblas_ddot"]))
          "ddot" "N=1000000"
          (benchmark_dot (D:=Q) rising_machine 1000000 0 1 true 16777216)
          (flops.dot 1000000) initial_world
  with
  | Ok res _ => (min_time_ms res <= avg_time_ms res <= max_time_ms res)%Q
  | _ => False
  end.
Proof.
  destruct (run_single_benchmark _ _ _ _ _ _) as [res w'|what w'|w'] eqn:Hrun.
  - destruct (proj1 C2_aggregator_exact _ _ _ _ _ _ _ _ Hrun)
      as (times & _ & _ & _ & _ & _ & _ & _ & H).
    exact H.
  - vm_compute in Hrun. discriminate.
  - vm_compute in Hrun. discriminate.
Defined.

(* ================================================================== *)
(** ** Field consistency of the results *)

Lemma Forall2_Forall_r {A B} (R : A -> B -> Prop) (P : B -> Prop) l1 l2 :
  (forall a b, R a b -> P b) -> Forall2 R l1 l2 -> Forall P l2.
Proof.
  intros H F. induction F; constructor; eauto.
Qed.



(** The dot product of a million elements at 1.0 ms runs at exactly
    2.0 GFLOPS in binary64. *)
Example dot_throughput_binary64 :
  gflops_of (flops.dot 1000000) 1%float = 2%float.
Proof. reflexivity. Qed.

(* ================================================================== *)
(** ** Invocations of the backend *)

(** Where a benchmarked operation leaves the world, whether or not its
    statistics are defined. *)
Lemma run_single_benchmark_world {D : Type} {dops : DoubleOps D}
      (mach : Machine) self name cs k warmup flush cache_size fl w :
  let o := run_single_benchmark (D:=D) self name cs
             (measurement_loop mach (blas mach k) warmup 1 flush cache_size)
             fl w in
  blas_calls (final_world o)
  = (blas_calls w
     + Z.to_nat (cycles (m_config self)) * (Z.to_nat warmup + 1))%nat
  /\ trace (final_world o)
     = trace w ++ times_events (Z.to_nat (cycles (m_config self)))
                    (loop_events k (Z.to_nat warmup) 1 flush cache_size).
Proof.
  cbv zeta.
  destruct (collect_times_spec (D:=D) mach self k warmup flush cache_size w)
    as (w' & Hrun & Hcalls & Htrace).
  unfold run_single_benchmark, bind. rewrite Hrun.
  destruct (samples mach (blas_calls w) (Z.to_nat warmup)
                    (Z.to_nat (cycles (m_config self)))) as [|x l].
  - rewrite summarise_nil. now cbn.
  - rewrite summarise_cons. now cbn.
Qed.




(* ================================================================== *)
(** ** Validation of the configuration *)

Section Validation.

Context {D : Type} {dops : DoubleOps D}.
Variable mach : Machine.

(** [main] rejects a configuration exactly when no level has a size. *)
Lemma main_rejects cfg w :
  no_size cfg = true ->
  main (D:=D) mach cfg w = Ok 1 (logged w (EvError no_sizes_message)).
Proof.
  unfold main, no_size. intros ->. reflexivity.
Qed.

Lemma main_runs cfg w :
  no_size cfg = false ->
  main (D:=D) mach cfg w
  = try_catch (report <- run_all (D:=D) mach (BenchmarkRunner_new mach cfg) ;;
               ret 0)
              (fun what =>
                 emit (EvError ("Benchmark failed: " ++ what)%string) ;;;
                 ret 1) w.
Proof.
  unfold main, no_size. intros ->. reflexivity.
Qed.

End Validation.

(** C5 (what the code does instead): a configuration with cycles = 0
    and at least one size passes the validation of [main]; no error is
    logged and the backend is never invoked; the program then reaches
    undefined behaviour (the statistics of an empty sample vector) as
    soon as a level that runs holds a recognised name, and exits with
    status 0 otherwise.  It is never rejected. *)
Theorem C5_zero_cycles_not_rejected {D : Type} {dops : DoubleOps D}
        (mach : Machine) (cfg : BenchmarkConfig) (w : World) :
  cycles cfg = 0 ->
  no_size cfg = false ->
  exists w',
    main (D:=D) mach cfg w
    = (if reaches_benchmark cfg then Undefined w' else Ok 0 w')
    /\ quiet w w'.
Proof.
  intros Hc Hsize. rewrite main_runs by exact Hsize.
  destruct (run_all_stalls (D:=D) mach (BenchmarkRunner_new mach cfg)
                           ltac:(cbn; lia) w) as (w' & Hrun & Hq).
  exists w'. split; [|exact Hq].
  unfold try_catch, bind. rewrite Hrun.
  change (m_config (BenchmarkRunner_new mach cfg)) with cfg.
  now destruct (reaches_benchmark cfg).
Qed.

(** C5 (witness): the default configuration with zero cycles. *)
Lemma C5_zero_cycles_not_rejected_witness :
  exists w',
    main (D:=float) (steady_machine 100) (with_cycles 0 get_default)
         initial_world
    = Undefined w'
    /\ quiet initial_world w'.
Proof.
  exact (C5_zero_cycles_not_rejected (D:=float) (steady_machine 100)
           (with_cycles 0 get_default) initial_world eq_refl eq_refl).
Defined.




(* ================================================================== *)
(** ** Unrecognised operation names *)

(** Matching is exact, hence case-sensitive: a name is recognised when
    it is, character for character, one of the level's names. *)
Lemma recognized_iff names name :
  recognized names name = true <-> In name names.
Proof.
  unfold recognized. rewrite existsb_exists. split.
  - intros (x & Hin & Heq). apply String.eqb_eq in Heq. now subst.
  - intros Hin. exists name. split; [exact Hin|apply String.eqb_refl].
Qed.

Section OneRecognised.

Context {D : Type} {dops : DoubleOps D}.
Variable mach : Machine.
Variable self : BenchmarkRunner.

Let cfg := m_config self.

(** The outcome of a level's loop over names of which exactly one,
    [r], is recognised. *)
Lemma dispatch_single
      (body : string -> BenchmarkReport D -> M (BenchmarkReport D))
      (push : BenchmarkReport D -> BenchmarkResult D -> BenchmarkReport D)
      (known : list string) (prefix : string) (names : list string) r
      report w :
  runs_known body push (recognized known) (reported cfg)
             (invocations_per_operation cfg) ->
  skips_unknown body (recognized known) prefix ->
  filter (recognized known) names = [r] ->
  exists res w',
    for_each names body report w = Ok (push report res) w'
    /\ function_name res = short_name r
    /\ warnings (trace w')
       = warnings (trace w)
           ++ map (String.append prefix)
                  (filter (fun name => negb (recognized known name)) names).
Proof.
  intros Hk Hu Hone.
  destruct (for_each_dispatch Hk Hu names report w)
    as (rs & w' & Hrun & Hall & Hwarn & _).
  rewrite Hone in Hall.
  inversion Hall as [|? res ? rs' [Hname _] Hnil]; subst.
  inversion Hnil; subst.
  exists res, w'. cbn [fold_left] in Hrun. now repeat split.
Qed.

End OneRecognised.



(* ================================================================== *)
(** ** Further properties of the engine *)

Lemma min_element_from_In {D : Type} {dops : DoubleOps D} (l : list D) :
  forall best, In (min_element_from best l) (best :: l).
Proof.
  induction l as [|x l IH]; intros best; cbn [min_element_from].
  - now left.
  - destruct (IH (if d_lt x best then x else best)) as [H|H].
    + rewrite <- H. destruct (d_lt x best); [right; now left|now left].
    + right. now right.
Qed.

Lemma max_element_from_In {D : Type} {dops : DoubleOps D} (l : list D) :
  forall best, In (max_element_from best l) (best :: l).
Proof.
  induction l as [|x l IH]; intros best; cbn [max_element_from].
  - now left.
  - destruct (IH (if d_lt best x then x else best)) as [H|H].
    + rewrite <- H. destruct (d_lt best x); [right; now left|now left].
    + right. now right.
Qed.

(** The collection loop pushes one sample per cycle, whatever the
    benchmark function is. *)
Lemma collect_loop_length {D : Type} (f : M D) n :
  forall (acc times : list D) w w',
    for_loop n (fun times => time_ms <- f ;; ret (times ++ [time_ms])) acc w
    = Ok times w' ->
    List.length times = (List.length acc + n)%nat.
Proof.
  induction n as [|n IH]; intros acc times w w'; cbn [for_loop].
  - unfold ret. intros H. injection H as <- _. lia.
  - unfold bind at 1. unfold bind at 1.
    destruct (f w) as [t w1|what w1|w1]; try discriminate.
    unfold ret at 1. intros H. apply IH in H.
    rewrite H, length_app. cbn. lia.
Qed.

(** X1: in either arithmetic, when a benchmarked operation yields a
    result, exactly [cycles] samples were collected, and the reported
    minimum and maximum are two of these samples. *)
Theorem X1_min_max_are_samples {D : Type} {dops : DoubleOps D}
        (self : BenchmarkRunner) (name cs : string) (f : M D) (fl : Z)
        (w : World) (res : BenchmarkResult D) (w' : World) :
  run_single_benchmark self name cs f fl w = Ok res w' ->
  exists times,
    collect_times self f w = Ok times w'
    /\ List.length times = Z.to_nat (cycles (m_config self))
    /\ 1 <= cycles (m_config self)
    /\ In (min_time_ms res) times
    /\ In (max_time_ms res) times.
Proof.
  intros Hrun.
  destruct (run_single_benchmark_inv _ _ _ _ _ _ Hrun)
    as (x & l & Hcollect & _ & _ & _ & _ & Hmin & Hmax & _).
  assert (Hlen : List.length (x :: l) = Z.to_nat (cycles (m_config self))).
  { unfold collect_times in Hcollect.
    now rewrite (collect_loop_length _ _ _ _ Hcollect). }
  exists (x :: l). split; [exact Hcollect|]. split; [exact Hlen|].
  split; [cbn [List.length] in Hlen; lia|].
  split; [rewrite Hmin; apply min_element_from_In
         |rewrite Hmax; apply max_element_from_In].
Qed.

(** X1 (witness): three timed calls of 100 microseconds, in binary64. *)
Lemma X1_min_max_are_samples_witness :
  match run_single_benchmark
          (BenchmarkRunner_new (steady_machine 100)
                               (level1_only 3 0 ["cblas_ddot"]))
          "ddot" "N=1000000"
          (benchmark_dot (D:=float) (steady_machine 100) 1000000 0 1 true
                         16777216)
          (flops.dot 1000000) initial_world
  with
  | Ok res _ => exists times : list float,
      List.length times = 3%nat
      /\ In (min_time_ms res) times /\ In (max_time_ms res) times
  | _ => False
  end.
Proof.
  destruct (run_single_benchmark _ _ _ _ _ _) as [res w'|what w'|w'] eqn:Hrun.
  - destruct (X1_min_max_are_samples _ _ _ _ _ _ Hrun)
      as (times & _ & Hlen & _ & Hmin & Hmax).
    exists times. now repeat split.
  - vm_compute in Hrun. discriminate.
  - vm_compute in Hrun. discriminate.
Defined.

Lemma reported_names {D : Type} {dops : DoubleOps D} cfg names
      (rs : list (BenchmarkResult D)) :
  Forall2 (reported cfg) names rs ->
  map (@function_name D) rs = map short_name names.
Proof.
  intros F. induction F as [|name r names rs [Hname _] _ IH]; cbn.
  - reflexivity.
  - now rewrite Hname, IH.
Qed.



(* ================================================================== *)
(** ** The discipline of the trace *)

Lemma disciplined_app flush cache_size tail1 tail2 :
  disciplined flush cache_size tail1 ->
  disciplined flush cache_size tail2 ->
  disciplined flush cache_size (tail1 ++ tail2).
Proof.
  intros H1 H2. induction H1 as [|k tail _ IH|k tail _ IH|msg tail _ IH].
  - exact H2.
  - rewrite <- app_assoc. now constructor.
  - rewrite <- app_assoc. now constructor.
  - cbn. now constructor.
Qed.

Lemma disciplined_times flush cache_size n block :
  disciplined flush cache_size block ->
  disciplined flush cache_size (times_events n block).
Proof.
  intros H. induction n as [|n IH].
  - constructor.
  - rewrite times_events_S. now apply disciplined_app.
Qed.

Lemma disciplined_loop flush cache_size k w c :
  disciplined flush cache_size (loop_events k w c flush cache_size).
Proof.
  unfold loop_events. apply disciplined_app; apply disciplined_times.
  - rewrite <- (app_nil_r (warm_events _ _ _)). repeat constructor.
  - rewrite <- (app_nil_r (timed_events _ _ _)). repeat constructor.
Qed.

(** In a disciplined sequence there is one eviction per backend
    invocation when evictions are on and none otherwise, every eviction
    has the given size, and nothing sets the thread count or logs an
    error. *)
Lemma disciplined_counts flush cache_size tail :
  disciplined flush cache_size tail ->
  List.length (filter is_flush tail)
  = (if flush then count_blas tail else 0%nat)
  /\ Forall (flush_size_is cache_size) tail
  /\ filter is_set_threads tail = []
  /\ filter is_error tail = [].
Proof.
  intros H. induction H as [|k tail _ IH|k tail _ IH|msg tail _ IH].
  - destruct flush; repeat split; constructor.
  - destruct IH as (Hn & Hs & Ht & He).
    rewrite !filter_app, count_blas_app, length_app, Forall_app, Hn, Ht, He.
    destruct flush; cbn; repeat split; trivial; repeat constructor.
  - destruct IH as (Hn & Hs & Ht & He).
    rewrite !filter_app, count_blas_app, length_app, Forall_app, Hn, Ht, He.
    destruct flush; cbn; repeat split; trivial; repeat constructor.
  - destruct IH as (Hn & Hs & Ht & He). cbn.
    repeat split; trivial. now constructor.
Qed.

Section Appending.

Context {D : Type} {dops : DoubleOps D}.
Variable mach : Machine.
Variable L : list Event -> Prop.
Hypothesis L_nil : L [].
Hypothesis L_app : forall tail1 tail2, L tail1 -> L tail2 -> L (tail1 ++ tail2).

Lemma appends_ret {A} (a : A) : appends L (ret a).
Proof. intros w. exists []. cbn. now rewrite app_nil_r. Qed.

Lemma appends_undefined {A} : appends L (undefined (A:=A)).
Proof. intros w. exists []. cbn. now rewrite app_nil_r. Qed.

Lemma appends_throw {A} what : appends L (throw (A:=A) what).
Proof. intros w. exists []. cbn. now rewrite app_nil_r. Qed.

Lemma appends_bind {A B} (c : M A) (k : A -> M B) :
  appends L c -> (forall a, appends L (k a)) -> appends L (bind c k).
Proof.
  intros Hc Hk w. destruct (Hc w) as (tail1 & Ht1 & L1). unfold bind.
  destruct (c w) as [a w1|what w1|w1]; cbn in *.
  - destruct (Hk a w1) as (tail2 & Ht2 & L2).
    exists (tail1 ++ tail2). rewrite Ht2, Ht1, app_assoc. split; auto.
  - now exists tail1.
  - now exists tail1.
Qed.

Lemma appends_if {A} (b : bool) (c : M A) (a : A) :
  appends L c -> appends L (if b then c else ret a).
Proof. intros Hc. destruct b; [exact Hc|apply appends_ret]. Qed.

Lemma appends_emit e : L [e] -> appends L (emit e).
Proof. intros He w. now exists [e]. Qed.

Lemma appends_for_loop {S} n (body : S -> M S) :
  (forall s, appends L (body s)) -> forall s, appends L (for_loop n body s).
Proof.
  intros Hb. induction n as [|n IH]; intros s; cbn [for_loop].
  - apply appends_ret.
  - apply appends_bind; [apply Hb|exact IH].
Qed.

Lemma appends_for_each {X S} (xs : list X) (body : X -> S -> M S) :
  (forall x s, appends L (body x s)) ->
  forall s, appends L (for_each xs body s).
Proof.
  intros Hb. induction xs as [|x xs IH]; intros s; cbn [for_each].
  - apply appends_ret.
  - apply appends_bind; [apply Hb|exact IH].
Qed.

Lemma appends_run_single_benchmark self name cs (f : M D) fl :
  appends L f -> appends L (run_single_benchmark self name cs f fl).
Proof.
  intros Hf. unfold run_single_benchmark. apply appends_bind.
  - unfold collect_times. apply appends_for_loop. intros times.
    apply appends_bind; [exact Hf|intros; apply appends_ret].
  - intros times. unfold summarise.
    destruct (min_element times), (max_element times);
      (apply appends_ret || apply appends_undefined).
Qed.

End Appending.

Lemma appends_measurement_loop {D : Type} {dops : DoubleOps D}
      (mach : Machine) k warmup cycles flush cache_size :
  appends (disciplined flush cache_size)
          (measurement_loop (D:=D) mach (blas mach k) warmup cycles
                            flush cache_size).
Proof.
  intros w.
  destruct (measurement_loop_spec (D:=D) mach k warmup cycles flush
                                  cache_size w) as (w' & -> & _ & Htrace).
  eexists. split; [exact Htrace|apply disciplined_loop].
Qed.

(** What the three levels of a run append to the trace. *)
Lemma appends_levels {D : Type} {dops : DoubleOps D}
      (mach : Machine) (self : BenchmarkRunner) :
  let L := disciplined (flush_cache (m_config self)) (m_cache_size self) in
  (forall report, appends L (run_level1 (D:=D) mach self report))
  /\ (forall report, appends L (run_level2 (D:=D) mach self report))
  /\ (forall report, appends L (run_level3 (D:=D) mach self report)).
Proof.
  cbv zeta.
  set (L := disciplined (flush_cache (m_config self)) (m_cache_size self)).
  assert (L_nil : L []) by constructor.
  assert (L_app : forall t1 t2, L t1 -> L t2 -> L (t1 ++ t2))
    by (intros; now apply disciplined_app).
  assert (Hone : forall name cs k fl report
                        (push : BenchmarkReport D -> BenchmarkResult D
                                -> BenchmarkReport D),
             appends L (result <- run_single_benchmark self name cs
                                    (measurement_loop mach (blas mach k)
                                       (SizeT.wrap (warmup (m_config self))) 1
                                       (flush_cache (m_config self))
                                       (m_cache_size self)) fl ;;
                        ret (push report result))).
  { intros. apply appends_bind; trivial; [|intros; now apply appends_ret].
    apply appends_run_single_benchmark; trivial.
    apply appends_measurement_loop. }
  assert (Hwarn : forall msg (report : BenchmarkReport D),
             appends L (emit (EvWarn msg) ;;; ret report)).
  { intros. apply appends_bind; trivial; [|intros; now apply appends_ret].
    apply appends_emit. repeat constructor. }
  split; [|split]; intros report.
  - unfold run_level1.
    destruct (level1_size (m_config self)) as [n|]; [|now apply appends_throw].
    apply appends_for_each; trivial. intros name r. unfold level1_step.
    destruct (name =? "cblas_ddot")%string; [apply Hone|].
    destruct (name =? "cblas_daxpy")%string; [apply Hone|].
    destruct (name =? "cblas_dscal")%string; [apply Hone|apply Hwarn].
  - unfold run_level2.
    destruct (level2_size (m_config self)) as [[m n]|];
      [|now apply appends_throw].
    apply appends_for_each; trivial. intros name r. unfold level2_step.
    destruct (name =? "cblas_dgemv")%string; [apply Hone|apply Hwarn].
  - unfold run_level3.
    destruct (level3_size (m_config self)) as [[[m n] k]|];
      [|now apply appends_throw].
    apply appends_for_each; trivial. intros name r. unfold level3_step.
    destruct (name =? "cblas_dgemm")%string; [apply Hone|apply Hwarn].
Qed.

(** What a run appends to the trace, whatever its outcome. *)
Lemma run_all_appends {D : Type} {dops : DoubleOps D}
      (mach : Machine) (self : BenchmarkRunner) (w : World) :
  exists tail,
    trace (final_world (run_all (D:=D) mach self w))
    = trace w ++ EvSetThreads (threads (m_config self)) :: tail
    /\ disciplined (flush_cache (m_config self)) (m_cache_size self) tail.
Proof.
  set (L := disciplined (flush_cache (m_config self)) (m_cache_size self)).
  assert (L_nil : L []) by constructor.
  assert (L_app : forall t1 t2, L t1 -> L t2 -> L (t1 ++ t2))
    by (intros; now apply disciplined_app).
  destruct (appends_levels (D:=D) mach self) as (H1 & H2 & H3). fold L in H1, H2, H3.
  pose (rest := fun report0 : BenchmarkReport D =>
            report <- (if has_value (level1_size (m_config self))
                          && negb (empty (level1_functions (m_config self)))
                       then run_level1 mach self report0 else ret report0) ;;
            report <- (if has_value (level2_size (m_config self))
                          && negb (empty (level2_functions (m_config self)))
                       then run_level2 mach self report else ret report) ;;
            report <- (if has_value (level3_size (m_config self))
                          && negb (empty (level3_functions (m_config self)))
                       then run_level3 mach self report else ret report) ;;
            ret report).
  assert (Hrest : forall report0, appends L (rest report0)).
  { intros report0. unfold rest.
    apply appends_bind; trivial;
      [apply appends_if; trivial; apply H1|intros r1].
    apply appends_bind; trivial;
      [apply appends_if; trivial; apply H2|intros r2].
    apply appends_bind; trivial;
      [apply appends_if; trivial; apply H3|intros r3].
    now apply appends_ret. }
  assert (Heq : run_all (D:=D) mach self w
                = rest (empty_report D (detected mach) (m_config self))
                       (logged w (EvSetThreads (threads (m_config self)))))
    by reflexivity.
  rewrite Heq.
  destruct (Hrest (empty_report D (detected mach) (m_config self))
                  (logged w (EvSetThreads (threads (m_config self)))))
    as (tail & Ht & HL).
  exists tail. unfold logged in Ht. cbn [trace] in Ht.
  unfold logged. rewrite Ht, <- app_assoc. cbn [app].
  split; [reflexivity|exact HL].
Qed.

(** X3: whatever the outcome of a run, it sets the thread count once,
    before anything else, and then appends only warmup invocations,
    timed invocations and warnings: an eviction happens only
    immediately before an invocation and outside its timed window,
    exactly when evictions are configured and with the runner's size, a
    timed window holds exactly one backend invocation, and no error is
    logged; so evictions and backend invocations are equally many when
    evictions are on, and there is no eviction otherwise. *)
Theorem X3_trace_discipline {D : Type} {dops : DoubleOps D}
        (mach : Machine) (self : BenchmarkRunner) (w : World) :
  let cfg := m_config self in
  exists tail,
    trace (final_world (run_all (D:=D) mach self w))
    = trace w ++ EvSetThreads (threads cfg) :: tail
    /\ disciplined (flush_cache cfg) (m_cache_size self) tail
    /\ List.length (filter is_flush tail)
       = (if flush_cache cfg then count_blas tail else 0%nat)
    /\ filter is_set_threads tail = []
    /\ filter is_error tail = [].
Proof.
  cbv zeta.
  destruct (run_all_appends (D:=D) mach self w) as (tail & Ht & HL).
  exists tail. split; [exact Ht|]. split; [exact HL|].
  destruct (disciplined_counts HL) as (Hn & _ & Hs & He). now repeat split.
Qed.

(* ================================================================== *)
(** ** What the report does not depend on *)

Lemma same_view_refl w : same_view w w.
Proof. now split. Qed.

Section Agreement.

Context {D : Type} {dops : DoubleOps D}.

Lemma agree_ret {A} (a : A) : agree (ret a) (ret a).
Proof. intros w1 w2 H. now cbn. Qed.

Lemma agree_undefined {A} : agree (undefined (A:=A)) undefined.
Proof. intros w1 w2 H. now cbn. Qed.

Lemma agree_throw {A} what : agree (throw (A:=A) what) (throw what).
Proof. intros w1 w2 H. now cbn. Qed.

Lemma agree_bind {A B} (c1 c2 : M A) (k1 k2 : A -> M B) :
  agree c1 c2 -> (forall a, agree (k1 a) (k2 a)) ->
  agree (bind c1 k1) (bind c2 k2).
Proof.
  intros Hc Hk w1 w2 H. specialize (Hc w1 w2 H). unfold bind.
  destruct (c1 w1) as [a1 v1|s1 v1|v1], (c2 w2) as [a2 v2|s2 v2|v2];
    cbn in Hc; try contradiction.
  - destruct Hc as [<- Hv]. now apply Hk.
  - exact Hc.
  - exact Hc.
Qed.

Lemma agree_if {A} (b : bool) (c1 c2 : M A) (a : A) :
  agree c1 c2 -> agree (if b then c1 else ret a) (if b then c2 else ret a).
Proof. intros Hc. destruct b; [exact Hc|apply agree_ret]. Qed.

Lemma agree_emit e : agree (emit e) (emit e).
Proof.
  intros w1 w2 [Hc Ht]. cbn. unfold same_view. cbn. now rewrite Hc, Ht.
Qed.

Lemma agree_for_loop {S} n (body1 body2 : S -> M S) :
  (forall s, agree (body1 s) (body2 s)) ->
  forall s, agree (for_loop n body1 s) (for_loop n body2 s).
Proof.
  intros Hb. induction n as [|n IH]; intros s; cbn [for_loop].
  - apply agree_ret.
  - apply agree_bind; [apply Hb|exact IH].
Qed.

Lemma agree_for_each {X S} (xs : list X) (body1 body2 : X -> S -> M S) :
  (forall x s, agree (body1 x s) (body2 x s)) ->
  forall s, agree (for_each xs body1 s) (for_each xs body2 s).
Proof.
  intros Hb. induction xs as [|x xs IH]; intros s; cbn [for_each].
  - apply agree_ret.
  - apply agree_bind; [apply Hb|exact IH].
Qed.

Variables m1 m2 : Machine.
Hypothesis Hsame : same_backend m1 m2.

Lemma loop_mean_same j c cycles :
  loop_mean (D:=D) m1 j c cycles = loop_mean m2 j c cycles.
Proof.
  unfold loop_mean. f_equal. f_equal. apply map_ext. intros i.
  unfold elapsed. now rewrite (proj2 Hsame).
Qed.

(** A [benchmark_*] function returns the same mean and leaves the same
    trace on both machines. *)
Lemma agree_measurement_loop k warmup cycles flush cache_size :
  agree (measurement_loop (D:=D) m1 (blas m1 k) warmup cycles flush cache_size)
        (measurement_loop (D:=D) m2 (blas m2 k) warmup cycles flush cache_size).
Proof.
  intros w1 w2 [Hc Ht].
  destruct (measurement_loop_spec (D:=D) m1 k warmup cycles flush cache_size w1)
    as (v1 & -> & Hc1 & Ht1).
  destruct (measurement_loop_spec (D:=D) m2 k warmup cycles flush cache_size w2)
    as (v2 & -> & Hc2 & Ht2).
  cbn. rewrite Hc, loop_mean_same. split; [reflexivity|].
  split; congruence.
Qed.

Lemma agree_run_single_benchmark self name cs (f1 f2 : M D) fl :
  agree f1 f2 ->
  agree (run_single_benchmark self name cs f1 fl)
        (run_single_benchmark self name cs f2 fl).
Proof.
  intros Hf. unfold run_single_benchmark. apply agree_bind.
  - unfold collect_times. apply agree_for_loop. intros times.
    apply agree_bind; [exact Hf|intros; apply agree_ret].
  - intros times. unfold summarise.
    destruct (min_element times), (max_element times);
      (apply agree_ret || apply agree_undefined).
Qed.

Lemma agree_run_all self :
  agree (run_all (D:=D) m1 self) (run_all (D:=D) m2 self).
Proof.
  assert (Hone : forall name cs k fl report
                        (push : BenchmarkReport D -> BenchmarkResult D
                                -> BenchmarkReport D),
             agree (result <- run_single_benchmark self name cs
                                (measurement_loop m1 (blas m1 k)
                                   (SizeT.wrap (warmup (m_config self))) 1
                                   (flush_cache (m_config self))
                                   (m_cache_size self)) fl ;;
                    ret (push report result))
                   (result <- run_single_benchmark self name cs
                                (measurement_loop m2 (blas m2 k)
                                   (SizeT.wrap (warmup (m_config self))) 1
                                   (flush_cache (m_config self))
                                   (m_cache_size self)) fl ;;
                    ret (push report result))).
  { intros. apply agree_bind; [|intros; apply agree_ret].
    apply agree_run_single_benchmark, agree_measurement_loop. }
  assert (Hwarn : forall msg (report : BenchmarkReport D),
             agree (emit (EvWarn msg) ;;; ret report)
                   (emit (EvWarn msg) ;;; ret report)).
  { intros. apply agree_bind; [apply agree_emit|intros; apply agree_ret]. }
  unfold run_all. rewrite (proj1 Hsame).
  apply agree_bind; [apply agree_emit|intros _].
  apply agree_bind; [apply agree_if|intros r1].
  { unfold run_level1.
    destruct (level1_size (m_config self)) as [n|]; [|apply agree_throw].
    apply agree_for_each. intros name r. unfold level1_step.
    destruct (name =? "cblas_ddot")%string; [apply Hone|].
    destruct (name =? "cblas_daxpy")%string; [apply Hone|].
    destruct (name =? "cblas_dscal")%string; [apply Hone|apply Hwarn]. }
  apply agree_bind; [apply agree_if|intros r2].
  { unfold run_level2.
    destruct (level2_size (m_config self)) as [[m n]|]; [|apply agree_throw].
    apply agree_for_each. intros name r. unfold level2_step.
    destruct (name =? "cblas_dgemv")%string; [apply Hone|apply Hwarn]. }
  apply agree_bind; [apply agree_if|intros r3; apply agree_ret].
  unfold run_level3.
  destruct (level3_size (m_config self)) as [[[m n] k]|]; [|apply agree_throw].
  apply agree_for_each. intros name r. unfold level3_step.
  destruct (name =? "cblas_dgemm")%string; [apply Hone|apply Hwarn].
Qed.

End Agreement.

(** X4: the outcome of the program does not depend on how long the
    evictions take, nor on what the clock shows when it starts: on two
    machines with the same detected hardware and the same backend
    durations, started in worlds with the same history, [main] ends the
    same way, with the same exit status, and [run_all] with the same
    report, after the same events. *)
Theorem X4_eviction_time_is_not_measured {D : Type} {dops : DoubleOps D}
        (m1 m2 : Machine) (cfg : BenchmarkConfig) (w1 w2 : World) :
  same_backend m1 m2 ->
  same_view w1 w2 ->
  same_outcome (run_all (D:=D) m1 (BenchmarkRunner_new m1 cfg) w1)
               (run_all (D:=D) m2 (BenchmarkRunner_new m2 cfg) w2)
  /\ same_outcome (main (D:=D) m1 cfg w1) (main (D:=D) m2 cfg w2).
Proof.
  intros Hsame Hview.
  assert (Hnew : BenchmarkRunner_new m2 cfg = BenchmarkRunner_new m1 cfg)
    by (unfold BenchmarkRunner_new; now rewrite (proj1 Hsame)).
  rewrite Hnew.
  pose proof (agree_run_all (D:=D) Hsame (BenchmarkRunner_new m1 cfg)) as Hrun.
  split; [now apply Hrun|].
  unfold main. rewrite Hnew.
  destruct (negb (has_value (level1_size cfg)) && _ && _).
  - apply agree_bind; [apply agree_emit|intros; apply agree_ret|exact Hview].
  - unfold try_catch.
    assert (Hbody : agree
                      (report <- run_all (D:=D) m1 (BenchmarkRunner_new m1 cfg) ;;
                       ret 0)
                      (report <- run_all (D:=D) m2 (BenchmarkRunner_new m1 cfg) ;;
                       ret 0))
      by (apply agree_bind; [exact Hrun|intros; apply agree_ret]).
    specialize (Hbody w1 w2 Hview).
    destruct ((report <- run_all m1 (BenchmarkRunner_new m1 cfg) ;; ret 0) w1)
      as [a1 v1|s1 v1|v1],
       ((report <- run_all m2 (BenchmarkRunner_new m1 cfg) ;; ret 0) w2)
      as [a2 v2|s2 v2|v2];
      cbn in Hbody; try contradiction; try exact Hbody.
    destruct Hbody as [<- Hv].
    apply agree_bind; [apply agree_emit|intros; apply agree_ret|exact Hv].
Qed.

(** X4 (witness): evictions that take no time against evictions that
    take a millisecond per byte, and clocks a day apart. *)
Lemma X4_eviction_time_is_not_measured_witness :
  same_outcome
    (main (D:=float)
          {| detected := stub_info; blas_ns := fun j => 1500;
             flush_ns := fun _ => 0 |}
          (level1_only 2 1 ["cblas_daxpy"]) initial_world)
    (main (D:=float)
          {| detected := stub_info; blas_ns := fun j => 1500;
             flush_ns := fun bytes => bytes * 1000000 |}
          (level1_only 2 1 ["cblas_daxpy"])
          {| now := 86400000000000; blas_calls := 0; trace := [] |}).
Proof.
  refine (proj2 (@X4_eviction_time_is_not_measured
                   float binary64
                   {| detected := stub_info; blas_ns := fun j => 1500;
                      flush_ns := fun _ => 0 |}
                   {| detected := stub_info; blas_ns := fun j => 1500;
                      flush_ns := fun bytes => bytes * 1000000 |}
                   (level1_only 2 1 ["cblas_daxpy"]) initial_world
                   {| now := 86400000000000; blas_calls := 0; trace := [] |}
                   _ _)).
  - split; reflexivity.
  - split; reflexivity.
Defined.

(* ================================================================== *)
(** ** The integer arguments of the backend *)

Lemma int_wrap_small z :
  IntT.in_range z = true -> IntT.wrap z = z.
Proof.
  unfold IntT.in_range, IntT.wrap, IntT.min, IntT.max. intros H.
  apply andb_true_iff in H. destruct H as [H1 H2].
  apply Z.leb_le in H1. apply Z.leb_le in H2.
  rewrite Z.mod_small; lia.
Qed.

(** An [int] converted to [std::size_t] and cast back is unchanged,
    negative or not. *)
Lemma int_size_t_int z :
  IntT.in_range z = true -> IntT.wrap (SizeT.wrap z) = z.
Proof.
  unfold IntT.in_range, IntT.wrap, IntT.min, IntT.max, SizeT.wrap,
    SizeT.modulus. intros H.
  apply andb_true_iff in H. destruct H as [H1 H2].
  apply Z.leb_le in H1. apply Z.leb_le in H2.
  rewrite (Z.mod_eq z (2 ^ 64)) by lia.
  replace (z - 2 ^ 64 * (z / 2 ^ 64) + 2 ^ 31)
    with (z + 2 ^ 31 + (- (z / 2 ^ 64) * 2 ^ 32) * 2 ^ 32) by lia.
  rewrite Z_mod_plus_full. rewrite Z.mod_small; lia.
Qed.

Lemma Forall_calls_loop cfg k w c flush cache_size :
  configured_call cfg (backend_call k) ->
  Forall (calls_configured cfg) (loop_events k w c flush cache_size).
Proof.
  intros Hk.
  assert (Hblock : forall n block,
             Forall (calls_configured cfg) block ->
             Forall (calls_configured cfg) (times_events n block)).
  { intros n block Hb. induction n as [|n IH]; [constructor|].
    rewrite times_events_S. apply Forall_app. now split. }
  unfold loop_events. apply Forall_app. split; apply Hblock.
  - unfold warm_events. destruct flush; repeat constructor; exact Hk.
  - unfold timed_events. destruct flush; repeat constructor; exact Hk.
Qed.



(** X6: a level-1 length reaches the backend unchanged exactly when it
    is below [2^31]: the [std::size_t] length is cast to [int] on the
    way, for each of the three level-1 routines. *)
Theorem X6_level1_length_is_cast_to_int (n : Z) :
  0 <= n < SizeT.modulus ->
  (backend_call (Kdot n) = cblas_ddot n 1 1 <-> n < 2 ^ 31)
  /\ (backend_call (Kaxpy n) = cblas_daxpy n 1 1 <-> n < 2 ^ 31)
  /\ (backend_call (Kscal n) = cblas_dscal n 1 <-> n < 2 ^ 31).
Proof.
  intros Hn.
  assert (Hwrap : IntT.wrap n = n <-> n < 2 ^ 31).
  { unfold IntT.wrap. split.
    - intros H.
      pose proof (Z.mod_pos_bound (n + 2 ^ 31) (2 ^ 32) ltac:(lia)). lia.
    - intros H. rewrite Z.mod_small; lia. }
  cbn [backend_call]. unfold BlasWrapper.dot, BlasWrapper.axpy,
                        BlasWrapper.scal.
  split; [|split]; (split; [intros H; apply Hwrap; congruence|
                            intros H; apply Hwrap in H; now rewrite H]).
Qed.

(** X6 (witness): three thousand million elements. *)
Lemma X6_level1_length_is_cast_to_int_witness :
  (backend_call (Kdot 3000000000) = cblas_ddot 3000000000 1 1
   <-> 3000000000 < 2 ^ 31)
  /\ (backend_call (Kaxpy 3000000000) = cblas_daxpy 3000000000 1 1
      <-> 3000000000 < 2 ^ 31)
  /\ (backend_call (Kscal 3000000000) = cblas_dscal 3000000000 1
      <-> 3000000000 < 2 ^ 31).
Proof.
  apply (@X6_level1_length_is_cast_to_int 3000000000).
  unfold SizeT.modulus. lia.
Defined.

(* ================================================================== *)
(** ** The resolution of the clock *)

Lemma sample_of_ns_bounds (ns : Z) :
  0 <= ns ->
  (sample_of_ns (D:=Q) ns * 1000000 <= inject_Z ns
   /\ inject_Z ns < sample_of_ns (D:=Q) ns * 1000000 + 1000)%Q.
Proof.
  intros Hns. unfold sample_of_ns. cbn [d_div d_of_Z exact].
  pose proof (Z.quot_rem' ns 1000) as Hqr.
  pose proof (Z.rem_bound_pos ns 1000 Hns ltac:(lia)) as Hrem.
  set (q := Z.quot ns 1000) in *.
  assert (Hms : (inject_Z q / inject_Z 1000 * 1000000
                 == inject_Z (1000 * q))%Q).
  { rewrite inject_Z_mult. change (inject_Z 1000) with (1000 # 1)%Q.
    field. }
  rewrite Hms. split.
  - rewrite <- Zle_Qle. lia.
  - change 1000%Q with (inject_Z 1000). rewrite <- inject_Z_plus.
    rewrite <- Zlt_Qlt. lia.
Qed.

(** X7: the three readings of a timer that was stopped no earlier than
    it was started, in exact arithmetic: the nanosecond reading is the
    difference of the two clock values, the millisecond reading is the
    same duration cut to whole microseconds, hence at most the duration
    and less than a microsecond short of it, and the second reading is
    a thousandth of the millisecond reading. *)
Theorem X7_timer_readings (t : utils.Timer) :
  utils.m_start t <= utils.m_end t ->
  (elapsed_ns (D:=Q) t == inject_Z (utils.m_end t - utils.m_start t)
   /\ utils.elapsed_ms (D:=Q) t * 1000000 <= elapsed_ns (D:=Q) t
   /\ elapsed_ns (D:=Q) t < utils.elapsed_ms (D:=Q) t * 1000000 + 1000
   /\ elapsed_sec (D:=Q) t * 1000 == utils.elapsed_ms (D:=Q) t)%Q.
Proof.
  intros Hle.
  split; [reflexivity|].
  destruct (@sample_of_ns_bounds (utils.m_end t - utils.m_start t)
                                 ltac:(lia)) as [Hlo Hhi].
  split; [exact Hlo|]. split; [exact Hhi|].
  unfold elapsed_sec, utils.elapsed_ms. cbn [d_div d_of_Z exact].
  change (inject_Z 1000000) with (1000000 # 1)%Q.
  change (inject_Z 1000) with (1000 # 1)%Q.
  field.
Qed.

(** X7 (witness): 1 234 567 ns between start and stop. *)
Lemma X7_timer_readings_witness :
  let t := {| utils.m_start := 5000; utils.m_end := 1239567 |} in
  (elapsed_ns (D:=Q) t == inject_Z (utils.m_end t - utils.m_start t)
   /\ utils.elapsed_ms (D:=Q) t * 1000000 <= elapsed_ns (D:=Q) t
   /\ elapsed_ns (D:=Q) t < utils.elapsed_ms (D:=Q) t * 1000000 + 1000
   /\ elapsed_sec (D:=Q) t * 1000 == utils.elapsed_ms (D:=Q) t)%Q.
Proof.
  intros t. apply (@X7_timer_readings t). cbn. lia.
Defined.

Section BelowResolution.

Variable mach : Machine.
Hypothesis Hquick : forall j, 0 <= blas_ns mach j < 1000.

Lemma quick_sample_exact j w c x :
  In x (samples (D:=Q) mach j w c) -> (x == 0)%Q.
Proof.
  revert j. induction c as [|c IH]; intros j; cbn [samples]; [intros []|].
  intros [<-|Hin]; [|now apply IH in Hin].
  unfold loop_mean, elapsed, sample_of_ns. cbn [seq map fold_left].
  rewrite Z.quot_small by apply Hquick. reflexivity.
Qed.

Lemma quick_sample_binary64 j w c x :
  In x (samples (D:=float) mach j w c) -> x = 0%float.
Proof.
  revert j. induction c as [|c IH]; intros j; cbn [samples]; [intros []|].
  intros [<-|Hin]; [|now apply IH in Hin].
  unfold loop_mean, elapsed, sample_of_ns. cbn [seq map fold_left].
  rewrite Z.quot_small by apply Hquick. reflexivity.
Qed.

End BelowResolution.



(* ================================================================== *)
(** ** Reading back what [std::format] prints *)

Local Open Scope string_scope.

Lemma uint_value_pos d :
  forall acc, uint_value d (Z.pos acc) = Z.pos (Pos.of_uint_acc d acc).
Proof.
  induction d; intros acc; cbn [uint_value Pos.of_uint_acc];
    [reflexivity|..]; rewrite <- IHd; f_equal; lia.
Qed.

Lemma uint_value_of_uint d : uint_value d 0 = Z.of_uint d.
Proof.
  unfold Z.of_uint.
  induction d; cbn [uint_value Pos.of_uint]; try exact IHd;
    try reflexivity;
    (change (10 * 0 + 1) with 1 || change (10 * 0 + 2) with 2
     || change (10 * 0 + 3) with 3 || change (10 * 0 + 4) with 4
     || change (10 * 0 + 5) with 5 || change (10 * 0 + 6) with 6
     || change (10 * 0 + 7) with 7 || change (10 * 0 + 8) with 8
     || change (10 * 0 + 9) with 9);
    now rewrite uint_value_pos.
Qed.

(** The digits of a numeral are read up to the first character that is
    not a digit. *)
Ltac eval_digit :=
  repeat match goal with
         | |- context [digit_of (Ascii ?b0 ?b1 ?b2 ?b3 ?b4 ?b5 ?b6 ?b7)] =>
             let v := eval vm_compute in
                      (digit_of (Ascii b0 b1 b2 b3 b4 b5 b6 b7)) in
             change (digit_of (Ascii b0 b1 b2 b3 b4 b5 b6 b7)) with v
         end.

Lemma digits_string_of_uint d rest :
  starts_with_digit rest = false ->
  forall acc,
    digits (NilEmpty.string_of_uint d ++ rest) acc true
    = Some (uint_value d acc).
Proof.
  intros Hrest.
  induction d; intros acc;
    cbn [NilEmpty.string_of_uint String.append uint_value digits];
    eval_digit; cbv iota;
    try (rewrite IHd; f_equal; f_equal; lia).
  destruct rest as [|c r]; [reflexivity|].
  cbn [digits]. cbn [starts_with_digit] in Hrest.
  now destruct (digit_of c).
Qed.

Lemma scan_numeral d rest :
  starts_with_digit rest = false ->
  skip_spaces (NilZero.string_of_uint d ++ rest)
  = NilZero.string_of_uint d ++ rest
  /\ scan_integer (NilZero.string_of_uint d ++ rest)
     = Some (false, Z.of_uint d)
  /\ digits (NilZero.string_of_uint d ++ rest) 0 false = Some (Z.of_uint d).
Proof.
  intros Hrest. rewrite <- uint_value_of_uint. unfold scan_integer.
  assert (Hnil : digits rest 0 true = Some 0).
  { destruct rest as [|c r]; [reflexivity|].
    cbn [digits]. cbn [starts_with_digit] in Hrest.
    now destruct (digit_of c). }
  destruct d;
    cbn [NilZero.string_of_uint NilEmpty.string_of_uint String.append
         skip_spaces isspace digits uint_value option_map];
    eval_digit; cbv iota;
    rewrite ?Hnil, ?(@digits_string_of_uint _ _ Hrest); auto.
  change (10 * 0 + 0) with 0. rewrite Hnil. auto.
Qed.

(** What [std::format] prints for an integer is read back, sign and
    magnitude, whatever follows it that is not a digit. *)
Lemma scan_fmt z rest :
  starts_with_digit rest = false ->
  scan_integer (fmt z ++ rest) = Some ((z <? 0)%Z, Z.abs z).
Proof.
  intros Hrest. unfold fmt.
  destruct z as [|p|p]; cbn [Z.to_int NilZero.string_of_int].
  - apply (@scan_numeral Decimal.zero rest Hrest).
  - destruct (@scan_numeral (Pos.to_uint p) rest Hrest) as (_ & -> & _).
    unfold Z.of_uint. now rewrite DecimalPos.Unsigned.of_to.
  - destruct (@scan_numeral (Pos.to_uint p) rest Hrest) as (_ & _ & Hd).
    unfold scan_integer.
    cbn [String.append skip_spaces isspace]. rewrite Hd.
    unfold Z.of_uint. now rewrite DecimalPos.Unsigned.of_to.
Qed.

Lemma stoi_fmt z rest :
  IntT.in_range z = true ->
  starts_with_digit rest = false ->
  stoi (fmt z ++ rest) = Converted z.
Proof.
  intros Hz Hrest. unfold stoi. rewrite (@scan_fmt z rest Hrest).
  assert (Hv : (if (z <? 0)%Z then - Z.abs z else Z.abs z) = z)
    by (destruct (Z.ltb_spec z 0); lia).
  rewrite Hv, Hz. reflexivity.
Qed.

Lemma stoull_fmt z rest :
  - SizeT.modulus < z < SizeT.modulus ->
  starts_with_digit rest = false ->
  stoull (fmt z ++ rest) = Converted (SizeT.wrap z).
Proof.
  intros Hz Hrest. unfold stoull. rewrite (@scan_fmt z rest Hrest).
  assert (Hv : (if (z <? 0)%Z then - Z.abs z else Z.abs z) = z)
    by (destruct (Z.ltb_spec z 0); lia).
  rewrite Hv.
  destruct (Z.ltb_spec (Z.abs z) SizeT.modulus); [reflexivity|lia].
Qed.

Lemma append_nil_r (s : string) : (s ++ "")%string = s.
Proof. induction s as [|c s IH]; cbn; [reflexivity|now rewrite IH]. Qed.

Lemma append_assoc (a b c : string) :
  ((a ++ b) ++ c)%string = (a ++ (b ++ c))%string.
Proof. induction a as [|x a IH]; cbn; [reflexivity|now rewrite IH]. Qed.

Lemma length_append (a b : string) :
  String.length (a ++ b) = (String.length a + String.length b)%nat.
Proof. induction a as [|x a IH]; cbn; [reflexivity|now rewrite IH]. Qed.

Lemma substring_all (s : string) : substring 0 (String.length s) s = s.
Proof. induction s as [|c s IH]; cbn; [reflexivity|now rewrite IH]. Qed.

Lemma substring_head (a b : string) :
  substring 0 (String.length a) (a ++ b) = a.
Proof.
  induction a as [|x a IH]; cbn; [now destruct b|now rewrite IH].
Qed.

Lemma substring_skip (a b : string) n len :
  substring (String.length a + n) len (a ++ b) = substring n len b.
Proof. induction a as [|x a IH]; cbn; [reflexivity|exact IH]. Qed.

Lemma substr_from_skip (a b : string) n :
  StdString.substr_from (String.length a + n) (a ++ b)
  = StdString.substr_from n b.
Proof.
  unfold StdString.substr_from. rewrite substring_skip, length_append.
  f_equal. lia.
Qed.

Lemma substr_from_0 (s : string) : StdString.substr_from 0 s = s.
Proof.
  unfold StdString.substr_from. rewrite Nat.sub_0_r. apply substring_all.
Qed.

(** No comma among the characters of a printed integer. *)
Lemma find_comma_numeral d rest :
  StdString.find ","%char (NilZero.string_of_uint d ++ rest)
  = option_map (Nat.add (String.length (NilZero.string_of_uint d)))
               (StdString.find ","%char rest).
Proof.
  assert (Hmap : forall (o : option nat) k,
             option_map S (option_map (Nat.add k) o)
             = option_map (Nat.add (S k)) o)
    by (intros [n|] k; reflexivity).
  assert (Hne : forall d,
             StdString.find ","%char (NilEmpty.string_of_uint d ++ rest)
             = option_map (Nat.add (String.length (NilEmpty.string_of_uint d)))
                          (StdString.find ","%char rest)).
  { intros d'. induction d';
      cbn [NilEmpty.string_of_uint String.append StdString.find Ascii.eqb
           Bool.eqb String.length];
      rewrite ?IHd', ?Hmap; try reflexivity.
    now destruct (StdString.find _ rest). }
  destruct d; try apply Hne.
  cbn [NilZero.string_of_uint String.append StdString.find Ascii.eqb
       Bool.eqb String.length].
  now destruct (StdString.find _ rest).
Qed.

Lemma find_comma_fmt z rest :
  StdString.find ","%char (fmt z ++ rest)
  = option_map (Nat.add (String.length (fmt z)))
               (StdString.find ","%char rest).
Proof.
  unfold fmt. destruct (Z.to_int z) as [d|d]; cbn [NilZero.string_of_int].
  - apply find_comma_numeral.
  - cbn [String.append StdString.find Ascii.eqb Bool.eqb String.length].
    rewrite find_comma_numeral.
    now destruct (StdString.find _ rest).
Qed.

(** X9: [parse_size_pair] reads back a pair of [int]s printed with a
    comma between them, negative or not, and ignores whatever follows
    the second one that is not a digit: further fields, units, white
    space. *)
Theorem X9_parse_size_pair_reads_sizes (m n : Z) (rest : string) :
  IntT.in_range m = true ->
  IntT.in_range n = true ->
  starts_with_digit rest = false ->
  parse_size_pair (fmt m ++ "," ++ fmt n ++ rest) = Some (m, n).
Proof.
  intros Hm Hn Hrest. unfold parse_size_pair.
  rewrite find_comma_fmt.
  cbn [String.append StdString.find Ascii.eqb Bool.eqb option_map].
  rewrite Nat.add_0_r. unfold StdString.substr.
  rewrite substring_head.
  rewrite <- (append_nil_r (fmt m)) at 1.
  rewrite (@stoi_fmt m "" Hm eq_refl).
  rewrite substr_from_skip.
  change (StdString.substr_from 1 (String ","%char (fmt n ++ rest)))
    with (StdString.substr_from 0 (fmt n ++ rest)).
  rewrite substr_from_0, (@stoi_fmt n rest Hn Hrest). reflexivity.
Qed.

(** X9 (witness): a third field and a unit after the two sizes. *)
Lemma X9_parse_size_pair_reads_sizes_witness :
  parse_size_pair (fmt 2048 ++ "," ++ fmt (-7) ++ ",512 elements")
  = Some (2048, -7).
Proof.
  apply (@X9_parse_size_pair_reads_sizes 2048 (-7) ",512 elements");
    reflexivity.
Defined.

(** X10: [parse_size_triple] reads back three [int]s printed with
    commas between them and ignores whatever follows the third one that
    is not a digit. *)
Theorem X10_parse_size_triple_reads_sizes (m n k : Z) (rest : string) :
  IntT.in_range m = true ->
  IntT.in_range n = true ->
  IntT.in_range k = true ->
  starts_with_digit rest = false ->
  parse_size_triple (fmt m ++ "," ++ fmt n ++ "," ++ fmt k ++ rest)
  = Some (m, n, k).
Proof.
  intros Hm Hn Hk Hrest. unfold parse_size_triple.
  rewrite find_comma_fmt.
  cbn [String.append StdString.find Ascii.eqb Bool.eqb option_map].
  rewrite Nat.add_0_r. unfold StdString.find_from.
  rewrite substr_from_skip.
  change (StdString.substr_from 1 (String ","%char ?s))
    with (StdString.substr_from 0 s).
  rewrite substr_from_0, find_comma_fmt.
  cbn [StdString.find Ascii.eqb Bool.eqb option_map].
  rewrite Nat.add_0_r. unfold StdString.substr.
  rewrite substring_head.
  rewrite <- (append_nil_r (fmt m)) at 1.
  rewrite (@stoi_fmt m "" Hm eq_refl).
  replace (String.length (fmt m) + 1 + String.length (fmt n)
           - String.length (fmt m) - 1)%nat
    with (String.length (fmt n)) by lia.
  rewrite substring_skip.
  change (substring 1 ?len (String ","%char ?s)) with (substring 0 len s).
  rewrite substring_head.
  rewrite <- (append_nil_r (fmt n)) at 1.
  rewrite (@stoi_fmt n "" Hn eq_refl).
  replace (String.length (fmt m) + 1 + String.length (fmt n) + 1)%nat
    with (String.length (fmt m) + (1 + String.length (fmt n) + 1))%nat
    by lia.
  rewrite substr_from_skip.
  change (StdString.substr_from (1 + String.length (fmt n) + 1)
            (String ","%char (fmt n ++ String ","%char (fmt k ++ rest))))
    with (StdString.substr_from (String.length (fmt n) + 1)
            (fmt n ++ String ","%char (fmt k ++ rest))).
  rewrite substr_from_skip.
  change (StdString.substr_from 1 (String ","%char (fmt k ++ rest)))
    with (StdString.substr_from 0 (fmt k ++ rest)).
  rewrite substr_from_0, (@stoi_fmt k rest Hk Hrest). reflexivity.
Qed.

(** X10 (witness): a fourth field after the three sizes. *)
Lemma X10_parse_size_triple_reads_sizes_witness :
  parse_size_triple (fmt 64 ++ "," ++ fmt 128 ++ "," ++ fmt 256 ++ ",9")
  = Some (64, 128, 256).
Proof.
  apply (@X10_parse_size_triple_reads_sizes 64 128 256 ",9"); reflexivity.
Defined.

Lemma stoi_in_range s z : stoi s = Converted z -> IntT.in_range z = true.
Proof.
  unfold stoi. destruct (scan_integer s) as [[negative magnitude]|];
    [|discriminate].
  destruct (IntT.in_range _) eqn:E; [|discriminate].
  intros H. injection H as <-. exact E.
Qed.

(** X11: the size parsers of config_parser.cpp and those of main.cpp
    are the same functions up to how they fail: where the former return
    sizes, the latter return the same sizes, which are [int]s; where
    the former throw, the latter return nothing; and the former throw
    their own [runtime_error] exactly when a comma is missing. *)
Theorem X11_size_parsers_agree (str : string) :
  match config.parse_size_pair str with
  | inr (m, n) =>
      parse_size_pair str = Some (m, n)
      /\ IntT.in_range m = true /\ IntT.in_range n = true
  | inl e =>
      parse_size_pair str = None
      /\ (e = runtime_error ("Invalid size format: " ++ str)
          <-> StdString.find ","%char str = None)
  end
  /\ match config.parse_size_triple str with
     | inr (m, n, k) =>
         parse_size_triple str = Some (m, n, k)
         /\ IntT.in_range m = true /\ IntT.in_range n = true
         /\ IntT.in_range k = true
     | inl e =>
         parse_size_triple str = None
         /\ (e = runtime_error ("Invalid size format: " ++ str)
             <-> (StdString.find ","%char str = None
                  \/ exists pos1,
                       StdString.find ","%char str = Some pos1
                       /\ StdString.find_from ","%char (pos1 + 1) str
                          = None))
     end.
Proof.
  split.
  - unfold config.parse_size_pair, parse_size_pair, config.stoi_or_raise.
    destruct (StdString.find ","%char str) as [pos|]; [|now repeat split].
    destruct (stoi (StdString.substr 0 pos str)) as [m| |] eqn:Em;
      try (split; [reflexivity|split; discriminate]).
    destruct (stoi (StdString.substr_from (pos + 1) str)) as [n| |] eqn:En;
      try (split; [reflexivity|split; discriminate]).
    split; [reflexivity|].
    split; [exact (stoi_in_range _ Em)|exact (stoi_in_range _ En)].
  - unfold config.parse_size_triple, parse_size_triple, config.stoi_or_raise.
    destruct (StdString.find ","%char str) as [pos1|];
      [|split; [reflexivity|split; [now left|reflexivity]]].
    destruct (StdString.find_from ","%char (pos1 + 1) str) as [pos2|] eqn:E2.
    + assert (Hno : ~ (Some pos1 = None
                       \/ exists p,
                            Some pos1 = Some p
                            /\ StdString.find_from ","%char (p + 1) str
                               = None)).
      { intros [H|(p & Hp & Hnone)]; [discriminate|].
        injection Hp as <-. congruence. }
      destruct (stoi (StdString.substr 0 pos1 str)) as [m| |] eqn:Em;
        try (split; [reflexivity|split; [discriminate|intros H; now destruct Hno]]).
      destruct (stoi (StdString.substr (pos1 + 1) (pos2 - pos1 - 1) str))
        as [n| |] eqn:En;
        try (split; [reflexivity|split; [discriminate|intros H; now destruct Hno]]).
      destruct (stoi (StdString.substr_from (pos2 + 1) str)) as [k| |] eqn:Ek;
        try (split; [reflexivity|split; [discriminate|intros H; now destruct Hno]]).
      split; [reflexivity|].
      split; [exact (stoi_in_range _ Em)|].
      split; [exact (stoi_in_range _ En)|exact (stoi_in_range _ Ek)].
    + split; [reflexivity|]. split; [|reflexivity].
      intros _. right. now exists pos1.
Qed.

Local Open Scope list_scope.
Local Open Scope Z_scope.

(* ================================================================== *)
(** ** The command line *)

Local Open Scope string_scope.

(** X12: a level-1 size on the command line is read as an unsigned
    number and is never rejected for its sign: what [std::format]
    prints for a number of magnitude below [2^64] replaces the
    configured level-1 length without a log entry, a negative number
    as itself plus [2^64]; what follows the digits is ignored. *)
Theorem X12_level1_argument_wraps (config : BenchmarkConfig) (z : Z)
        (rest : string) (t c wu : Z) (w : World) :
  - SizeT.modulus < z < SizeT.modulus ->
  starts_with_digit rest = false ->
  let cl := {| opt_threads := t; opt_cycles := c; opt_warmup := wu;
               level1_str := fmt z ++ rest;
               level2_str := ""; level3_str := "" |} in
  parse_size_arguments config cl w
  = Ok (Some (with_level1_size (if (z <? 0)%Z then z + SizeT.modulus else z)
                               config)) w.
Proof.
  intros Hz Hrest cl. unfold parse_size_arguments, bind.
  cbn [level1_str level2_str level3_str cl].
  assert (Hne : StdString.empty (fmt z ++ rest) = false).
  { unfold fmt. destruct (Z.to_int z) as [d|d]; [destruct d|]; reflexivity. }
  rewrite Hne, (@stoull_fmt z rest Hz Hrest).
  cbn [negb StdString.empty ret].
  assert (Hwrap : SizeT.wrap z
                  = if (z <? 0)%Z then z + SizeT.modulus else z).
  { unfold SizeT.wrap. destruct (Z.ltb_spec z 0).
    - rewrite <- (Z_mod_plus_full z 1). rewrite Z.mod_small; lia.
    - rewrite Z.mod_small; lia. }
  now rewrite Hwrap.
Qed.

(** X12 (witness): [--level1 -1] *)
Lemma X12_level1_argument_wraps_witness :
  parse_size_arguments get_default
    {| opt_threads := 1; opt_cycles := 5; opt_warmup := 3;
       level1_str := fmt (-1) ++ "";
       level2_str := ""; level3_str := "" |} initial_world
  = Ok (Some (with_level1_size 18446744073709551615 get_default))
       initial_world.
Proof.
  apply (@X12_level1_argument_wraps get_default (-1) "" 1 5 3 initial_world).
  - unfold SizeT.modulus. lia.
  - reflexivity.
Defined.

(** X13: the thread count, the cycle count and the warmup count of the
    loaded configuration never take effect: the program behaves as the
    command line says, whatever the configuration file holds for
    them. *)
Theorem X13_file_execution_parameters_are_overridden
        {D : Type} {dops : DoubleOps D} (mach : Machine)
        (config : BenchmarkConfig) (t c wu : Z) (cl : CommandLine)
        (w : World) :
  main_from_command_line (D:=D) mach (with_execution t c wu config) cl w
  = main_from_command_line (D:=D) mach config cl w.
Proof. reflexivity. Qed.

Lemma parse_size_arguments_outcome config cl w :
  (exists config',
      parse_size_arguments config cl w = Ok (Some config') w
      /\ (has_value (level1_size config) = true ->
          has_value (level1_size config') = true)
      /\ (has_value (level2_size config) = true ->
          has_value (level2_size config') = true)
      /\ (has_value (level3_size config) = true ->
          has_value (level3_size config') = true))
  \/ (exists msg,
         parse_size_arguments config cl w = Ok None (logged w (EvError msg))
         /\ msg <> no_sizes_message).
Proof.
  unfold parse_size_arguments, bind.
  destruct (negb (StdString.empty (level1_str cl)));
    [destruct (stoull (level1_str cl)) as [n| |]|];
    cbn [emit ret];
    try (right; eexists; split; [reflexivity|discriminate]).
  - destruct (negb (StdString.empty (level2_str cl)));
      [destruct (parse_size_pair (level2_str cl)) as [size2|]|];
      cbn [emit ret];
      try (right; eexists; split; [reflexivity|discriminate]).
    + destruct (negb (StdString.empty (level3_str cl)));
        [destruct (parse_size_triple (level3_str cl)) as [size3|]|];
        cbn [emit ret];
        try (right; eexists; split; [reflexivity|discriminate]);
        left; eexists; (split; [reflexivity|]); cbn; auto.
    + destruct (negb (StdString.empty (level3_str cl)));
        [destruct (parse_size_triple (level3_str cl)) as [size3|]|];
        cbn [emit ret];
        try (right; eexists; split; [reflexivity|discriminate]);
        left; eexists; (split; [reflexivity|]); cbn; auto.
  - destruct (negb (StdString.empty (level2_str cl)));
      [destruct (parse_size_pair (level2_str cl)) as [size2|]|];
      cbn [emit ret];
      try (right; eexists; split; [reflexivity|discriminate]).
    + destruct (negb (StdString.empty (level3_str cl)));
        [destruct (parse_size_triple (level3_str cl)) as [size3|]|];
        cbn [emit ret];
        try (right; eexists; split; [reflexivity|discriminate]);
        left; eexists; (split; [reflexivity|]); cbn; auto.
    + destruct (negb (StdString.empty (level3_str cl)));
        [destruct (parse_size_triple (level3_str cl)) as [size3|]|];
        cbn [emit ret];
        try (right; eexists; split; [reflexivity|discriminate]);
        left; eexists; (split; [reflexivity|]); cbn; auto.
Qed.

Local Open Scope list_scope.
Local Open Scope Z_scope.

(** X14: the exit status and the log agree on every path of the
    program.  When [main] returns, the status is [0] and the program
    has logged no error, or it is [1] and the program has logged
    exactly one: for a size argument that cannot be read, for a
    configuration without sizes, or for an exception of the run. *)
Theorem X14_exit_status_and_log {D : Type} {dops : DoubleOps D}
        (mach : Machine) (config : BenchmarkConfig) (cl : CommandLine)
        (w : World) (status : Z) (w' : World) :
  main_from_command_line (D:=D) mach config cl w = Ok status w' ->
  exists tail,
    trace w' = trace w ++ tail
    /\ ((status = 0 /\ errors tail = [])
        \/ (status = 1 /\ exists msg, errors tail = [EvError msg])).
Proof.
  unfold main_from_command_line, bind.
  destruct (parse_size_arguments_outcome (override_execution config cl) cl w)
    as [(config' & -> & _)|(msg & -> & _)].
  - destruct (no_size config') eqn:Hsize.
    + rewrite (main_rejects (D:=D) mach _ w Hsize).
      intros H. injection H as <- <-.
      exists [EvError no_sizes_message]. split; [reflexivity|].
      right. split; [reflexivity|]. now eexists.
    + rewrite (main_runs (D:=D) mach _ w Hsize). unfold try_catch, bind.
      destruct (run_all_appends (D:=D) mach (BenchmarkRunner_new mach config') w)
        as (tail & Ht & HL).
      destruct (disciplined_counts HL) as (_ & _ & _ & He).
      destruct (run_all mach (BenchmarkRunner_new mach config') w)
        as [report w1|what w1|w1]; cbn [final_world] in Ht;
        [| |discriminate].
      * unfold ret. intros H. injection H as <- <-.
        eexists. split; [exact Ht|]. left. split; [reflexivity|exact He].
      * cbn [emit ret]. intros H. injection H as <- <-.
        cbn [trace]. rewrite Ht, <- app_assoc. eexists.
        split; [reflexivity|]. right. split; [reflexivity|].
        eexists. unfold errors. cbn [app filter is_error].
        rewrite filter_app, He. reflexivity.
  - unfold ret. intros H. injection H as <- <-.
    exists [EvError msg]. split; [reflexivity|].
    right. split; [reflexivity|]. now eexists.
Qed.

(** X14 (witness): a level-2 size without a comma. *)
Lemma X14_exit_status_and_log_witness :
  exists tail,
    trace (logged initial_world
                  (EvError "Invalid level2 size format: 1024x1024. Expected M,N"))
    = trace initial_world ++ tail
    /\ ((1 = 0 /\ errors tail = [])
        \/ (1 = 1 /\ exists msg, errors tail = [EvError msg])).
Proof.
  apply (@X14_exit_status_and_log float binary64 (steady_machine 7) get_default
           (sizes_on_command_line "" "1024x1024" "") initial_world 1
           (logged initial_world
                   (EvError "Invalid level2 size format: 1024x1024. Expected M,N"))).
  reflexivity.
Defined.

(** X15: the command line can add sizes and replace them, never remove
    them.  From a loaded configuration that has a size for some level,
    as the default configuration has, the program never reports that
    no benchmark sizes are specified, whatever the command line. *)
Theorem X15_sizes_are_never_removed {D : Type} {dops : DoubleOps D}
        (mach : Machine) (config : BenchmarkConfig) (cl : CommandLine) :
  no_size config = false ->
  keeps not_no_sizes_error (main_from_command_line (D:=D) mach config cl).
Proof.
  intros Hsize w Hw. unfold main_from_command_line, bind.
  destruct (parse_size_arguments_outcome (override_execution config cl) cl w)
    as [(config' & -> & H1 & H2 & H3)|(msg & -> & Hmsg)].
  - assert (Hsize' : no_size config' = false).
    { unfold no_size in *. cbn [override_execution level1_size level2_size
                                 level3_size] in H1, H2, H3.
      destruct (has_value (level1_size config));
        [now rewrite H1|].
      destruct (has_value (level2_size config));
        [rewrite H2 by reflexivity; now rewrite andb_false_r|].
      destruct (has_value (level3_size config)); [|discriminate].
      rewrite H3 by reflexivity. now rewrite andb_false_r. }
    rewrite (main_runs (D:=D) mach _ w Hsize'). unfold try_catch, bind.
    assert (Hrun : keeps not_no_sizes_error
                         (run_all (D:=D) mach (BenchmarkRunner_new mach config')))
      by (apply keeps_run_all; intros; discriminate).
    specialize (Hrun w Hw).
    destruct (run_all mach (BenchmarkRunner_new mach config') w)
      as [report w1|what w1|w1]; cbn [final_world ret] in *; trivial.
    cbn [emit trace]. apply Forall_app. split; [exact Hrun|].
    constructor; [discriminate|constructor].
  - cbn [ret final_world logged trace]. apply Forall_app. split; [exact Hw|].
    constructor; [|constructor].
    intros H. injection H as H. now apply Hmsg.
Qed.

(** X15 (witness): the default configuration and a size that cannot
    be read. *)
Lemma X15_sizes_are_never_removed_witness :
  keeps not_no_sizes_error
        (main_from_command_line (D:=float) (steady_machine 7) get_default
                                (sizes_on_command_line "many" "" "")).
Proof.
  apply (@X15_sizes_are_never_removed float binary64 (steady_machine 7)
           get_default (sizes_on_command_line "many" "" "")).
  reflexivity.
Defined.
